(** * Image-to-URL recognition backend (src/backend/server.py)

    Shallow embedding of the similarity-matching core of the FastAPI
    backend: the [ImageProcessor] (validation, perceptual hashes, Hamming
    distance) and the four API operations over the [image_links] MongoDB
    collection (link, scan, list, delete).

    Modelling choices:
    - Python [str] values are [String.string] (ASCII); [bytes] are
      [list Byte.byte]; Python [int]s are [Z].
    - The external libraries (python-magic, PIL, imagehash, hashlib) are a
      type class [ImageLib]; a raising library call returns [inr msg].
    - The collection is the list of its documents in natural (insertion)
      order. Every write operation issued to it is also recorded in a
      journal, so that "which writes happened" can be stated.
    - Exceptions are threaded by a state/exception monad [M]: the state
      reached at the point of the raise is kept (no rollback), as in the
      code. *)

From Stdlib Require Import ZArith Lia List Bool.
From Stdlib Require Import Strings.String Strings.Ascii Strings.Byte.
From Stdlib Require Import Numbers.DecimalString.
Import ListNotations.
Open Scope Z_scope.

(* ------------------------------------------------------------------ *)
(** ** Python values *)

Definition bytes := list Byte.byte.

(** A Python [dict] with string keys, kept in insertion order. *)
Definition dict (V : Type) := list (string * V).

Fixpoint dict_get {V} (k : string) (d : dict V) : option V :=
  match d with
  | [] => None
  | (k', v) :: d' => if String.eqb k k' then Some v else dict_get k d'
  end.

(** [str(n)] of a Python [int]. *)
Definition py_str_int (n : Z) : string := NilEmpty.string_of_int (Z.to_int n).

(** f-string rendering of an [Optional[str]]: [None] prints as "None". *)
Definition py_str_opt (s : option string) : string :=
  match s with Some s => s | None => "None" end.

(* ------------------------------------------------------------------ *)
(** ** Exceptions and the state/exception monad *)

Inductive exc :=
| HTTPException (status_code : Z) (detail : string)
| Exception (msg : string).

(** [str(e)]; starlette renders an [HTTPException] as "code: detail". *)
Definition exc_str (e : exc) : string :=
  match e with
  | HTTPException c d => py_str_int c ++ ": " ++ d
  | Exception m => m
  end.

(** A stored [image_links] document: [ImageLink.dict()] plus the
    [updated_at] key that [$set] adds on re-link. The four hash keys are
    optional because the scan tests [algorithm in stored_image]. *)
Record doc := mk_doc {
  id : string;
  filename : string;
  url : string;
  file_hash : string;
  ahash : option string;
  phash : option string;
  dhash : option string;
  whash : option string;
  content_type : string;
  file_size : Z;
  image_width : Z;
  image_height : Z;
  created_at : Z;
  updated_at : option Z
}.

(** [stored_image[algorithm]] for the four hash keys. *)
Definition doc_get_hash (d : doc) (algorithm : string) : option string :=
  if String.eqb algorithm "ahash" then ahash d
  else if String.eqb algorithm "phash" then phash d
  else if String.eqb algorithm "dhash" then dhash d
  else if String.eqb algorithm "whash" then whash d
  else None.

(** One write operation issued to the collection. *)
Inductive write :=
| WInsert (d : doc)
| WUpdate (file_hash_filter new_url : string) (now : Z)
| WDelete (id_filter : string).

Record world := mk_world {
  image_links : list doc;
  journal : list write
}.

Definition M (A : Type) := world -> (A + exc) * world.

Definition ret {A} (a : A) : M A := fun w => (inl a, w).
Definition raise {A} (e : exc) : M A := fun w => (inr e, w).
Definition bind {A B} (m : M A) (k : A -> M B) : M B :=
  fun w => match m w with
           | (inl a, w') => k a w'
           | (inr e, w') => (inr e, w')
           end.

(** [try: m except ... : h]: the handler runs in the state reached. *)
Definition py_try {A} (m : M A) (h : exc -> M A) : M A :=
  fun w => match m w with
           | (inr e, w') => h e w'
           | r => r
           end.

Notation "x <- m ;; k" := (bind m (fun x => k))
  (at level 61, m at next level, right associativity).

(** A call into an external library: its exception becomes [Exception]. *)
Definition lib {A} (r : A + string) : M A :=
  match r with inl a => ret a | inr m => raise (Exception m) end.

(* ------------------------------------------------------------------ *)
(** ** Collection operations (motor) *)

(** [find_one({"file_hash": h})]: first matching document. *)
Definition find_one_by_hash (h : string) : M (option doc) :=
  fun w => (inl (find (fun d => String.eqb (file_hash d) h) (image_links w)), w).

(** [{"$set": {"url": u, "updated_at": t}}] on one document. *)
Definition set_url_fields (u : string) (t : Z) (d : doc) : doc :=
  {| id := id d; filename := filename d; url := u;
     file_hash := file_hash d; ahash := ahash d; phash := phash d;
     dhash := dhash d; whash := whash d;
     content_type := content_type d; file_size := file_size d;
     image_width := image_width d; image_height := image_height d;
     created_at := created_at d; updated_at := Some t |}.

(** The update applies to the first document matching the filter. *)
Fixpoint set_url_first (h u : string) (t : Z) (l : list doc) : list doc :=
  match l with
  | [] => []
  | d :: l' =>
      if String.eqb (file_hash d) h then set_url_fields u t d :: l'
      else d :: set_url_first h u t l'
  end.

(** [update_one({"file_hash": h}, {"$set": {"url": u, "updated_at": t}})]. *)
Definition update_one_by_hash (h u : string) (t : Z) : M unit :=
  fun w => (inl tt, mk_world (set_url_first h u t (image_links w))
                            (journal w ++ [WUpdate h u t])).

(** [insert_one(d)]. *)
Definition insert_one (d : doc) : M unit :=
  fun w => (inl tt, mk_world (image_links w ++ [d]) (journal w ++ [WInsert d])).

Fixpoint delete_first_id (i : string) (l : list doc) : list doc * Z :=
  match l with
  | [] => ([], 0)
  | d :: l' =>
      if String.eqb (id d) i then (l', 1)
      else let '(r, n) := delete_first_id i l' in (d :: r, n)
  end.

(** [delete_one({"id": i})], returning [deleted_count]. *)
Definition delete_one_by_id (i : string) : M Z :=
  fun w => let '(l, n) := delete_first_id i (image_links w) in
           (inl n, mk_world l (journal w ++ [WDelete i])).

(** [find({}).to_list(limit)]. *)
Definition find_all (limit : nat) : M (list doc) :=
  fun w => (inl (firstn limit (image_links w)), w).

(* ------------------------------------------------------------------ *)
(** ** [int(s, 16)], [bin(n)] and [str.zfill] on ASCII strings *)

Definition chars := list ascii.

(** The blanks [int(s, 16)] skips, for a string of code points below 256
    (one [ascii] each): [_PyUnicode_TransformDecimalAndSpaceToASCII] keeps
    the code points below 127 and turns the non-ASCII whitespace U+0085 and
    U+00A0 into a space, then [PyLong_FromString] skips [Py_ISSPACE]:
    \t \n \v \f \r and the space. The separators \x1c-\x1f are not
    skipped. *)
Definition py_isspace (c : ascii) : bool :=
  let n := nat_of_ascii c in
  (Nat.leb 9 n && Nat.leb n 13) || Nat.eqb n 32 || Nat.eqb n 133 || Nat.eqb n 160.

Fixpoint skip_spaces (s : chars) : chars :=
  match s with
  | c :: r => if py_isspace c then skip_spaces r else s
  | [] => []
  end.

(** [_PyLong_DigitValue[c] < 16]. *)
Definition hex_digit_value (c : ascii) : option Z :=
  let n := Z.of_nat (nat_of_ascii c) in
  if (48 <=? n) && (n <=? 57) then Some (n - 48)
  else if (97 <=? n) && (n <=? 102) then Some (n - 87)
  else if (65 <=? n) && (n <=? 70) then Some (n - 55)
  else None.

(** The digit run of [PyLong_FromString]: hex digits with single
    underscores between them. Returns the value, the number of digits and
    the rest; [None] on a doubled or trailing underscore. *)
Fixpoint scan_run (s : chars) (prev_us : bool) (acc : Z) (nd : nat)
  : option (Z * nat * chars) :=
  match s with
  | c :: r =>
      if Ascii.eqb c "_" then
        if prev_us then None else scan_run r true acc nd
      else match hex_digit_value c with
           | Some v => scan_run r false (acc * 16 + v) (S nd)
           | None => if prev_us then None else Some (acc, nd, s)
           end
  | [] => if prev_us then None else Some (acc, nd, [])
  end.

(** [int(s, 16)]; [None] is the [ValueError]. *)
Definition py_int_base16 (str : string) : option Z :=
  let s0 := skip_spaces (list_ascii_of_string str) in
  let '(sign, s1) :=
    match s0 with
    | c :: r => if Ascii.eqb c "+" then (1, r)
                else if Ascii.eqb c "-" then (-1, r) else (1, s0)
    | [] => (1, s0)
    end in
  let s2 :=
    match s1 with
    | c0 :: x :: r =>
        if Ascii.eqb c0 "0" && (Ascii.eqb x "x" || Ascii.eqb x "X") then
          match r with
          | u :: r' => if Ascii.eqb u "_" then r' else r
          | [] => r
          end
        else s1
    | _ => s1
    end in
  match s2 with
  | u :: _ => if Ascii.eqb u "_" then None else
      match scan_run s2 false 0 0 with
      | Some (v, S _, rest) =>
          match skip_spaces rest with [] => Some (sign * v) | _ => None end
      | _ => None
      end
  | [] => None
  end.

(** Binary digits of a positive number, most significant first. *)
Fixpoint pos_bits (p : positive) : chars :=
  match p with
  | xH => ["1"%char]
  | xO p' => pos_bits p' ++ ["0"%char]
  | xI p' => pos_bits p' ++ ["1"%char]
  end.

(** [bin(n)]. *)
Definition py_bin (n : Z) : chars :=
  match n with
  | Z0 => ["0"; "b"; "0"]%char
  | Zpos p => ["0"; "b"]%char ++ pos_bits p
  | Zneg p => ["-"; "0"; "b"]%char ++ pos_bits p
  end.

(** [s.zfill(width)]: left-pad with '0'; a leading sign moves in front. *)
Definition py_zfill (s : chars) (width : nat) : chars :=
  let fill := (width - List.length s)%nat in
  if Nat.leb width (List.length s) then s
  else match s with
       | c :: r => if Ascii.eqb c "+" || Ascii.eqb c "-"
                   then c :: repeat "0"%char fill ++ r
                   else repeat "0"%char fill ++ s
       | [] => repeat "0"%char fill
       end.

(** [sum(b1 != b2 for b1, b2 in zip(s1, s2))]. *)
Fixpoint count_ne (s1 s2 : chars) : Z :=
  match s1, s2 with
  | c1 :: r1, c2 :: r2 => (if Ascii.eqb c1 c2 then 0 else 1) + count_ne r1 r2
  | _, _ => 0
  end.

(** [ImageProcessor.calculate_similarity]. *)
Definition calculate_similarity (hash1 hash2 : string) : Z :=
  if negb (Nat.eqb (String.length hash1) (String.length hash2)) then 64
  else match py_int_base16 hash1, py_int_base16 hash2 with
       | Some v1, Some v2 =>
           let bin1 := py_zfill (skipn 2 (py_bin v1)) (String.length hash1 * 4) in
           let bin2 := py_zfill (skipn 2 (py_bin v2)) (String.length hash2 * 4) in
           count_ne bin1 bin2
       | _, _ => 64
       end.


(* ------------------------------------------------------------------ *)
(** ** External libraries *)

(** python-magic, PIL, imagehash and hashlib, as used by the code. A
    result [inr msg] is a raised exception with [str(e) = msg]. *)
Class ImageLib := {
  image : Type;
  magic_from_buffer : bytes -> string + string;  (* mime=True *)
  image_open : bytes -> image + string;           (* Image.open(BytesIO) *)
  image_mode : image -> string;
  image_convert : image -> string -> image + string;
  image_size : image -> Z * Z;
  image_thumbnail : image -> Z * Z -> image + string;  (* LANCZOS *)
  average_hash : image -> Z -> string + string;   (* str(...) of the hash *)
  phash_of : image -> Z -> string + string;
  dhash_of : image -> Z -> string + string;
  whash_of : image -> Z -> string + string;
  sha256_hexdigest : bytes -> string
}.

(** An [UploadFile]: client file name and content. *)
Record upload := mk_upload {
  upload_filename : option string;
  upload_content : bytes
}.

(** The dict returned by [validate_and_process_image]. *)
Record processed {L : ImageLib} := mk_processed {
  p_image : image;
  p_hashes : dict string;
  p_file_hash : string;
  p_content_type : string;
  p_file_size : Z;
  p_image_size : Z * Z
}.
Arguments processed : clear implicits.
Arguments processed {_}.

(** [ImageProcessor.__init__]. *)
Definition max_dimension : Z := 2048.
Definition hash_size : Z := 8.
Definition max_file_size : Z := 10 * 1024 * 1024.
Definition allowed_mime_types : list string :=
  ["image/jpeg"%string; "image/png"%string; "image/gif"%string;
   "image/bmp"%string; "image/webp"%string].

Definition py_in (s : string) (l : list string) : bool :=
  existsb (String.eqb s) l.

Section Processor.
Context {L : ImageLib}.

(** [ImageProcessor.compute_hashes]. *)
Definition compute_hashes (img : image) : M (dict string) :=
  a <- lib (average_hash img hash_size) ;;
  p <- lib (phash_of img hash_size) ;;
  d <- lib (dhash_of img hash_size) ;;
  w <- lib (whash_of img hash_size) ;;
  ret [("ahash"%string, a); ("phash"%string, p); ("dhash"%string, d);
       ("whash"%string, w)].

(** [ImageProcessor.validate_and_process_image]. *)
Definition validate_and_process_image (file : upload) : M processed :=
  let content := upload_content file in
  if Z.of_nat (List.length content) >? max_file_size
  then raise (HTTPException 413 "File too large (max 10MB)")
  else
  detected_type <-
    py_try
      (t <- lib (magic_from_buffer content) ;;
       if negb (py_in t allowed_mime_types)
       then raise (HTTPException 400 ("Unsupported file type: " ++ t))
       else ret t)
      (fun _ => raise (HTTPException 400 "Unable to determine file type")) ;;
  py_try
    (img0 <- lib (image_open content) ;;
     img1 <- (if negb (String.eqb (image_mode img0) "RGB")
              then lib (image_convert img0 "RGB") else ret img0) ;;
     img2 <- (let '(wd, ht) := image_size img1 in
              if Z.max wd ht >? max_dimension
              then lib (image_thumbnail img1 (max_dimension, max_dimension))
              else ret img1) ;;
     hashes <- compute_hashes img2 ;;
     let file_hash := sha256_hexdigest content in
     ret {| p_image := img2; p_hashes := hashes; p_file_hash := file_hash;
            p_content_type := detected_type;
            p_file_size := Z.of_nat (List.length content);
            p_image_size := image_size img2 |})
    (fun e => raise (HTTPException 400 ("Invalid image file: " ++ exc_str e))).

End Processor.

(* ------------------------------------------------------------------ *)
(** ** API routes *)

(** [except HTTPException: raise / except Exception as e: raise 500]. *)
Definition reraise_or_500 {A} (e : exc) : M A :=
  match e with
  | HTTPException _ _ => raise e
  | Exception m => raise (HTTPException 500 ("Internal server error: " ++ m))
  end.

(** [d[k]] on a dict: [KeyError] when absent. *)
Definition dict_item {V} (k : string) (d : dict V) : M V :=
  match dict_get k d with
  | Some v => ret v
  | None => raise (Exception ("'" ++ k ++ "'"))
  end.

(** [file.filename or "unknown"]. *)
Definition py_or_unknown (s : option string) : string :=
  match s with
  | Some s => if String.eqb s "" then "unknown" else s
  | None => "unknown"
  end.

Inductive link_response :=
| LinkUpdated (message image_id url : string)
| LinkCreated (message image_id url : string) (hashes : dict string).

Record match_info := mk_match {
  m_id : string;
  m_filename : string;
  m_url : string;
  m_distance : Z;
  m_similarity_percentage : Z;
  m_algorithm_used : string;
  m_created_at : Z
}.

Inductive scan_response :=
| MatchFound (message : string) (best_match : match_info)
             (redirect_url : string) (total_stored_images : Z)
| NoMatch (message : string) (total_stored_images : Z) (threshold_used : Z).

(** The order of the algorithm loop in [scan_image_for_url]. *)
Definition scan_algorithms : list string :=
  ["dhash"%string; "phash"%string; "ahash"%string; "whash"%string].

(** The [distances] dict of one stored image. *)
Fixpoint compute_distances (query_hashes : dict string) (stored_image : doc)
         (algorithms : list string) : dict Z :=
  match algorithms with
  | [] => []
  | a :: rest =>
      match dict_get a query_hashes, doc_get_hash stored_image a with
      | Some h1, Some h2 =>
          (a, calculate_similarity h1 h2)
            :: compute_distances query_hashes stored_image rest
      | _, _ => compute_distances query_hashes stored_image rest
      end
  end.

(** [min(values)] from a first element: a later value replaces the current
    one only when strictly smaller. *)
Fixpoint py_min_from (m : Z) (l : list Z) : Z :=
  match l with
  | [] => m
  | x :: r => py_min_from (if x <? m then x else m) r
  end.

(** [min(distances, key=distances.get)]: first key with the least value. *)
Fixpoint min_key_from (best : string * Z) (l : dict Z) : string :=
  match l with
  | [] => fst best
  | (k, v) :: r => min_key_from (if v <? snd best then (k, v) else best) r
  end.

(** [min_distance < best_distance], [None] being [float('inf')]. *)
Definition lt_best (x : Z) (best_distance : option Z) : bool :=
  match best_distance with None => true | Some b => x <? b end.

(** The [for stored_image in stored_images] loop. *)
Fixpoint scan_loop (query_hashes : dict string) (threshold : Z)
         (stored : list doc) (best_match : option match_info)
         (best_distance : option Z) : option match_info * option Z :=
  match stored with
  | [] => (best_match, best_distance)
  | stored_image :: rest =>
      match compute_distances query_hashes stored_image scan_algorithms with
      | [] => scan_loop query_hashes threshold rest best_match best_distance
      | (k0, v0) :: ds as distances =>
          let min_distance := py_min_from v0 (map snd ds) in
          if (min_distance <=? threshold) && lt_best min_distance best_distance
          then scan_loop query_hashes threshold rest
                 (Some {| m_id := id stored_image;
                          m_filename := filename stored_image;
                          m_url := url stored_image;
                          m_distance := min_distance;
                          m_similarity_percentage :=
                            Z.max 0 (100 - min_distance * 10);
                          m_algorithm_used := min_key_from (k0, v0) ds;
                          m_created_at := created_at stored_image |})
                 (Some min_distance)
          else scan_loop query_hashes threshold rest best_match best_distance
      end
  end.

(** Record summary of [get_stored_images]. *)
Record image_summary := mk_summary {
  s_id : string;
  s_filename : string;
  s_url : string;
  s_content_type : string;
  s_file_size : Z;
  s_image_size : string;
  s_created_at : Z
}.

Section Routes.
Context {L : ImageLib}.

(** [POST /api/link-image]; [new_id] is the [uuid4()] and [now] the
    [datetime.utcnow()] read by the call. *)
Definition link_image_to_url (url_ : string) (file : upload)
           (new_id : string) (now : Z) : M link_response :=
  py_try
    (result <- validate_and_process_image file ;;
     existing <- find_one_by_hash (p_file_hash result) ;;
     match existing with
     | Some ex =>
         _ <- update_one_by_hash (p_file_hash result) url_ now ;;
         ret (LinkUpdated ("Updated URL for existing image: "
                           ++ py_str_opt (upload_filename file)) (id ex) url_)
     | None =>
         a <- dict_item "ahash" (p_hashes result) ;;
         p <- dict_item "phash" (p_hashes result) ;;
         d <- dict_item "dhash" (p_hashes result) ;;
         w <- dict_item "whash" (p_hashes result) ;;
         let image_link :=
           {| id := new_id; filename := py_or_unknown (upload_filename file);
              url := url_; file_hash := p_file_hash result;
              ahash := Some a; phash := Some p; dhash := Some d; whash := Some w;
              content_type := p_content_type result;
              file_size := p_file_size result;
              image_width := fst (p_image_size result);
              image_height := snd (p_image_size result);
              created_at := now; updated_at := None |} in
         _ <- insert_one image_link ;;
         ret (LinkCreated ("Successfully linked " ++ py_str_opt (upload_filename file)
                           ++ " to " ++ url_) new_id url_ (p_hashes result))
     end)
    reraise_or_500.

(** [POST /api/scan-image]. *)
Definition scan_image_for_url (file : upload) (threshold : Z) : M scan_response :=
  py_try
    (result <- validate_and_process_image file ;;
     let query_hashes := p_hashes result in
     stored_images <- find_all 1000 ;;
     let total := Z.of_nat (List.length stored_images) in
     match fst (scan_loop query_hashes threshold stored_images None None) with
     | Some m =>
         ret (MatchFound ("Found matching image: " ++ m_filename m) m (m_url m) total)
     | None => ret (NoMatch "No matching images found" total threshold)
     end)
    reraise_or_500.

End Routes.

(** [GET /api/stored-images]: every exception becomes a 500. *)
Definition get_stored_images : M (list image_summary) :=
  py_try
    (images <- find_all 1000 ;;
     ret (map (fun img =>
                 {| s_id := id img; s_filename := filename img; s_url := url img;
                    s_content_type := content_type img;
                    s_file_size := file_size img;
                    s_image_size := py_str_int (image_width img) ++ "x"
                                    ++ py_str_int (image_height img);
                    s_created_at := created_at img |}) images))
    (fun e => raise (HTTPException 500 ("Internal server error: " ++ exc_str e))).

(** [DELETE /api/stored-images/{image_id}]. *)
Definition delete_stored_image (image_id : string) : M string :=
  py_try
    (n <- delete_one_by_id image_id ;;
     if n =? 0 then raise (HTTPException 404 "Image not found")
     else ret "Image link deleted successfully"%string)
    reraise_or_500.

(* ------------------------------------------------------------------ *)
(** ** Spec-level notions (the words of the specification) *)

(** A character of the expected encoding: a hexadecimal digit. *)
Definition is_hex_digit (c : ascii) : bool :=
  match hex_digit_value c with Some _ => true | None => false end.

(** A hash code in the expected encoding: non-empty, hex digits only. *)
Definition is_hex_code (s : string) : bool :=
  negb (String.eqb s "") && forallb is_hex_digit (list_ascii_of_string s).

(** The [w] low bits of [v], most significant first. *)
Fixpoint bits_w (v : Z) (w : nat) : list bool :=
  match w with
  | O => []
  | S w' => Z.testbit v (Z.of_nat w') :: bits_w v w'
  end.

(** Each hex digit decodes to its 4 bits; a code of n digits to 4n bits. *)
Definition nibble (c : ascii) : list bool :=
  match hex_digit_value c with Some v => bits_w v 4 | None => [] end.

Definition hex_bits (s : string) : list bool :=
  flat_map nibble (list_ascii_of_string s).

(** Number of differing bit positions. *)
Fixpoint hamming (l1 l2 : list bool) : Z :=
  match l1, l2 with
  | b1 :: r1, b2 :: r2 => (if Bool.eqb b1 b2 then 0 else 1) + hamming r1 r2
  | _, _ => 0
  end.

(** [{"file_hash": h}] as a filter. *)
Definition hash_filter (h : string) (d : doc) : bool := String.eqb (file_hash d) h.

(** The four fingerprints of a document. *)
Definition fingerprints (d : doc) : option string * option string * option string * option string :=
  (ahash d, phash d, dhash d, whash d).

Section LinkSpec.
Context {L : ImageLib}.

(** After a successful validation with result [r], one [link] call issues
    exactly one write: an update of the existing record (returning its id)
    when a record has the checksum, an insert of a new record with the
    generated id otherwise. *)
Definition link_single_write_post (file : upload) (w : world) (r : processed) : Prop :=
  forall url_ new_id now,
  exists resp wr,
    fst (link_image_to_url url_ file new_id now w) = inl resp /\
    journal (snd (link_image_to_url url_ file new_id now w)) = journal w ++ [wr] /\
    match find (hash_filter (p_file_hash r)) (image_links w) with
    | Some ex =>
        (exists msg, resp = LinkUpdated msg (id ex) url_) /\
        wr = WUpdate (p_file_hash r) url_ now
    | None =>
        (exists msg, resp = LinkCreated msg new_id url_ (p_hashes r)) /\
        exists d, wr = WInsert d /\ id d = new_id /\ url d = url_ /\
                  file_hash d = p_file_hash r /\
                  image_links (snd (link_image_to_url url_ file new_id now w))
                  = image_links w ++ [d]
    end.

(** Linking the same bytes twice, from a store without their checksum:
    Created, then Updated with the same id; the record then carries the
    second URL and the fingerprints it was created with. *)
Definition link_twice_post (file : upload) (w : world) (r : processed) : Prop :=
  forall url1 url2 id1 id2 t1 t2,
  let w1 := snd (link_image_to_url url1 file id1 t1 w) in
  let w2 := snd (link_image_to_url url2 file id2 t2 w1) in
  (exists msg hs, fst (link_image_to_url url1 file id1 t1 w)
                  = inl (LinkCreated msg id1 url1 hs)) /\
  (exists msg, fst (link_image_to_url url2 file id2 t2 w1)
               = inl (LinkUpdated msg id1 url2)) /\
  exists d1 d2,
    find (hash_filter (p_file_hash r)) (image_links w1) = Some d1 /\
    find (hash_filter (p_file_hash r)) (image_links w2) = Some d2 /\
    id d1 = id1 /\ id d2 = id1 /\ url d1 = url1 /\ url d2 = url2 /\
    fingerprints d2 = fingerprints d1.

(** Re-linking a known checksum rewrites only [url] and [updated_at] of the
    record found, and leaves every other record as it was. *)
Definition link_update_frame_post (url_ : string) (file : upload) (new_id : string)
           (now : Z) (w : world) (ex : doc) : Prop :=
  exists pre post ex',
    image_links w = pre ++ ex :: post /\
    image_links (snd (link_image_to_url url_ file new_id now w)) = pre ++ ex' :: post /\
    url ex' = url_ /\ updated_at ex' = Some now /\
    id ex' = id ex /\ filename ex' = filename ex /\
    file_hash ex' = file_hash ex /\ fingerprints ex' = fingerprints ex /\
    content_type ex' = content_type ex /\ file_size ex' = file_size ex /\
    image_width ex' = image_width ex /\ image_height ex' = image_height ex /\
    created_at ex' = created_at ex.

End LinkSpec.

(** The API operations, run one after the other. *)
Inductive api_op :=
| OpLink (url_ : string) (file : upload) (new_id : string) (now : Z)
| OpScan (file : upload) (threshold : Z)
| OpList
| OpDelete (image_id : string).

Section Reach.
Context {L : ImageLib}.

(** The collection after one operation (whether it returned or raised). *)
Definition run_op (op : api_op) (w : world) : world :=
  match op with
  | OpLink u f i t => snd (link_image_to_url u f i t w)
  | OpScan f t => snd (scan_image_for_url f t w)
  | OpList => snd (get_stored_images w)
  | OpDelete i => snd (delete_stored_image i w)
  end.

Inductive reachable : world -> Prop :=
| reachable_init : reachable (mk_world [] [])
| reachable_step op w : reachable w -> reachable (run_op op w).

End Reach.

(** At most one record per checksum. *)
Definition unique_checksums (w : world) : Prop := NoDup (map file_hash (image_links w)).

(** A candidate's minimum distance, as the scan computes it: the least
    value of its [distances] dict; [None] when the dict is empty. *)
Definition cand_min (query_hashes : dict string) (d : doc) : option Z :=
  match compute_distances query_hashes d scan_algorithms with
  | [] => None
  | (_, v0) :: ds => Some (py_min_from v0 (map snd ds))
  end.

(** [k] is the least distance over the algorithms present in both the
    query's fingerprints and the record [d]. *)
Definition is_min_distance (query_hashes : dict string) (d : doc) (k : Z) : Prop :=
  (exists a h1 h2, In a scan_algorithms /\ dict_get a query_hashes = Some h1 /\
                   doc_get_hash d a = Some h2 /\ calculate_similarity h1 h2 = k) /\
  (forall a h1 h2, In a scan_algorithms -> dict_get a query_hashes = Some h1 ->
                   doc_get_hash d a = Some h2 -> k <= calculate_similarity h1 h2).

(** [d] is the first of [cands] whose minimum distance [k] is the least
    among all candidates. *)
Definition selects_first_best (query_hashes : dict string) (cands : list doc)
           (d : doc) (k : Z) : Prop :=
  exists pre post,
    cands = pre ++ d :: post /\ cand_min query_hashes d = Some k /\
    (forall d' k', In d' pre -> cand_min query_hashes d' = Some k' -> k < k') /\
    (forall d' k', In d' post -> cand_min query_hashes d' = Some k' -> k <= k').

(** The reported match describes record [d] at distance [k]; the reported
    algorithm is one that achieves [k]. *)
Definition describes (query_hashes : dict string) (d : doc) (k : Z) (m : match_info) : Prop :=
  m_id m = id d /\ m_filename m = filename d /\ m_url m = url d /\
  m_distance m = k /\ m_similarity_percentage m = Z.max 0 (100 - k * 10) /\
  m_created_at m = created_at d /\
  exists h1 h2, dict_get (m_algorithm_used m) query_hashes = Some h1 /\
                doc_get_hash d (m_algorithm_used m) = Some h2 /\
                calculate_similarity h1 h2 = k.

(** The match dict the scan builds from a record, when the record shares
    an algorithm with the query. *)
Definition match_of (query_hashes : dict string) (stored_image : doc) : option match_info :=
  match compute_distances query_hashes stored_image scan_algorithms with
  | [] => None
  | (k0, v0) :: ds =>
      let min_distance := py_min_from v0 (map snd ds) in
      Some {| m_id := id stored_image;
              m_filename := filename stored_image;
              m_url := url stored_image;
              m_distance := min_distance;
              m_similarity_percentage := Z.max 0 (100 - min_distance * 10);
              m_algorithm_used := min_key_from (k0, v0) ds;
              m_created_at := created_at stored_image |}
  end.

(* ------------------------------------------------------------------ *)
(** ** A concrete library, for evaluating the routes on examples *)

Module Toy.

(** Images are their sizes; content starting with byte 0x89 decodes;
    every image hashes to the same four codes; the digest is the content
    read as ASCII. *)
#[export] Instance toy_lib : ImageLib := {|
  image := (Z * Z)%type;
  magic_from_buffer := fun c => match c with
                                | [] => inr "empty buffer"%string
                                | _ => inl "image/png"%string end;
  image_open := fun c => match c with
                         | x89 :: _ => inl (16, 16)
                         | _ => inr "cannot identify image file"%string end;
  image_mode := fun _ => "RGB"%string;
  image_convert := fun i _ => inl i;
  image_size := fun i => i;
  image_thumbnail := fun _ sz => inl sz;
  average_hash := fun _ _ => inl "ffffffffffffffff"%string;
  phash_of := fun _ _ => inl "8000000000000001"%string;
  dhash_of := fun _ _ => inl "0f0f0f0f0f0f0f0f"%string;
  whash_of := fun _ _ => inl "ff00ff00ff00ff00"%string;
  sha256_hexdigest := fun c => string_of_list_ascii (map ascii_of_byte c)
|}.

Definition png : upload := mk_upload (Some "cat.png"%string) [x89; x50; x4e; x47].
Definition garbage : upload := mk_upload (Some "x.png"%string) [x00; x01].
Definition empty_world : world := mk_world [] [].

End Toy.

(* ================================================================== *)
(** * Properties *)

(** ** Evaluations of the distance on small codes *)

Example calc_ex1 : calculate_similarity "ff00" "ff01" = 1. Proof. reflexivity. Qed.
Example calc_ex2 : calculate_similarity "0f" "f0" = 8. Proof. reflexivity. Qed.
Example calc_ex3 : calculate_similarity "0x10" "0010" = 0. Proof. reflexivity. Qed.
Example calc_ex4 : calculate_similarity "f_f" "0ff" = 0. Proof. reflexivity. Qed.
Example calc_ex5 : calculate_similarity "abc" "ab" = 64. Proof. reflexivity. Qed.
Example calc_ex6 : calculate_similarity "zz" "zz" = 64. Proof. reflexivity. Qed.

(** ** Bits of a number *)

Lemma bits_w_length v w : List.length (bits_w v w) = w.
Proof. induction w; simpl; auto. Qed.

Lemma bits_w_ext x y m :
  (forall i, (i < m)%nat -> Z.testbit x (Z.of_nat i) = Z.testbit y (Z.of_nat i)) ->
  bits_w x m = bits_w y m.
Proof.
  induction m as [|m IH]; intros H; simpl; [reflexivity|].
  rewrite (H m) by lia. f_equal. apply IH. intros i Hi. apply H. lia.
Qed.

(** Bits of [a * 2^m + d] split into those of [a] and those of [d]. *)
Lemma bits_w_app w m a d :
  0 <= d < 2 ^ Z.of_nat m ->
  bits_w (a * 2 ^ Z.of_nat m + d) (w + m) = bits_w a w ++ bits_w d m.
Proof.
  intros Hd. assert (Hp : 0 < 2 ^ Z.of_nat m) by (apply Z.pow_pos_nonneg; lia).
  induction w as [|w IH]; simpl.
  - apply bits_w_ext. intros i Hi.
    rewrite <- (Z.mod_pow2_bits_low (a * 2 ^ Z.of_nat m + d) (Z.of_nat m)) by lia.
    f_equal. rewrite Z.add_comm, Z.mod_add by lia. apply Z.mod_small. lia.
  - rewrite IH. f_equal.
    replace (Z.of_nat (w + m)) with (Z.of_nat w + Z.of_nat m) by lia.
    rewrite <- Z.div_pow2_bits by lia. f_equal.
    rewrite Z.div_add_l by lia. rewrite Z.div_small by lia. lia.
Qed.

Lemma bits_w_zero w : bits_w 0 w = repeat false w.
Proof. induction w; simpl; [reflexivity|]. rewrite Z.testbit_0_l, IHw. reflexivity. Qed.

(** Above the width of [v] all bits are 0. *)
Lemma bits_w_high k m v :
  0 <= v < 2 ^ Z.of_nat m -> bits_w v (k + m) = repeat false k ++ bits_w v m.
Proof.
  intros Hv. rewrite <- bits_w_zero.
  rewrite <- (bits_w_app k m 0 v Hv). f_equal.
Qed.

(** ** [bin(n)] padded by [zfill] *)

Definition bitchar (b : bool) : ascii := if b then "1"%char else "0"%char.

Lemma pos_bits_spec p :
  pos_bits p = map bitchar (bits_w (Zpos p) (Pos.size_nat p)) /\
  2 ^ Z.of_nat (Pos.size_nat p) <= 2 * Zpos p < 2 * 2 ^ Z.of_nat (Pos.size_nat p).
Proof.
  induction p as [p [IH1 IH2]|p [IH1 IH2]|]; simpl Pos.size_nat.
  - replace (S (Pos.size_nat p)) with (Pos.size_nat p + 1)%nat by lia.
    replace (Zpos p~1) with (Zpos p * 2 ^ Z.of_nat 1 + 1) by lia.
    rewrite bits_w_app by (simpl; lia). rewrite map_app, <- IH1.
    split; [reflexivity|].
    rewrite Nat2Z.inj_add, Z.pow_add_r by lia. change (2 ^ Z.of_nat 1) with 2. lia.
  - replace (S (Pos.size_nat p)) with (Pos.size_nat p + 1)%nat by lia.
    replace (Zpos p~0) with (Zpos p * 2 ^ Z.of_nat 1 + 0) by lia.
    rewrite bits_w_app by (simpl; lia). rewrite map_app, <- IH1.
    split; [reflexivity|].
    rewrite Nat2Z.inj_add, Z.pow_add_r by lia. change (2 ^ Z.of_nat 1) with 2. lia.
  - split; [reflexivity|]. simpl. lia.
Qed.

(** For [0 <= v < 2^w] (and [w >= 1]), [bin(v)[2:].zfill(w)] is the
    [w]-bit representation of [v]. *)
Lemma zfill_bin v w :
  (1 <= w)%nat -> 0 <= v < 2 ^ Z.of_nat w ->
  py_zfill (skipn 2 (py_bin v)) w = map bitchar (bits_w v w).
Proof.
  intros Hw Hv. destruct v as [|p|p]; [| |lia].
  - rewrite bits_w_zero, map_repeat. unfold py_zfill. simpl skipn.
    simpl List.length. destruct (Nat.leb w 1) eqn:E.
    + apply Nat.leb_le in E. replace w with 1%nat by lia. reflexivity.
    + simpl. rewrite <- repeat_cons.
      destruct w as [|w]; [lia|]. simpl. rewrite Nat.sub_0_r. reflexivity.
  - destruct (pos_bits_spec p) as [Hb Hs].
    set (n := Pos.size_nat p) in *.
    assert (Hn : (n <= w)%nat).
    { destruct (Nat.le_gt_cases n w) as [|Hgt]; [assumption|].
      exfalso. assert (2 ^ Z.of_nat (S w) <= 2 ^ Z.of_nat n)
        by (apply Z.pow_le_mono_r; lia).
      rewrite Nat2Z.inj_succ, Z.pow_succ_r in H by lia. lia. }
    replace w with ((w - n) + n)%nat by lia.
    assert (Hv' : 0 <= Zpos p < 2 ^ Z.of_nat n) by lia.
    rewrite (bits_w_high _ _ _ Hv'), map_app, map_repeat.
    replace (skipn 2 (py_bin (Zpos p))) with (pos_bits p) by reflexivity.
    unfold py_zfill. rewrite Hb, length_map, bits_w_length.
    destruct (Nat.leb (w - n + n) n) eqn:E.
    + apply Nat.leb_le in E. replace (w - n)%nat with 0%nat by lia. reflexivity.
    + replace (w - n + n - n)%nat with (w - n)%nat by lia.
      destruct (bits_w (Zpos p) n) as [|b r] eqn:Eb.
      * simpl. rewrite app_nil_r. reflexivity.
      * destruct b; reflexivity.
Qed.

(** ** [int(s, 16)] on codes of hex digits *)

Definition hex_digit (c : ascii) : Z :=
  match hex_digit_value c with Some v => v | None => 0 end.

(** Value of a run of hex digits, as [scan_run] accumulates it. *)
Definition hex_step (acc : Z) (c : ascii) : Z := acc * 16 + hex_digit c.

Lemma hex_char_facts c v :
  hex_digit_value c = Some v ->
  py_isspace c = false /\ Ascii.eqb c "+" = false /\ Ascii.eqb c "-" = false /\
  Ascii.eqb c "x" = false /\ Ascii.eqb c "X" = false /\
  Ascii.eqb c "_" = false /\ 0 <= v < 16.
Proof.
  destruct c as [[] [] [] [] [] [] [] []]; intros H; vm_compute in H;
    try discriminate H; injection H as <-; repeat split; try reflexivity; lia.
Qed.

Lemma is_hex_digit_value c :
  is_hex_digit c = true -> exists v, hex_digit_value c = Some v.
Proof.
  unfold is_hex_digit. destruct (hex_digit_value c); [eauto | discriminate].
Qed.

Lemma scan_run_hex s acc nd :
  forallb is_hex_digit s = true ->
  scan_run s false acc nd = Some (fold_left hex_step s acc, (nd + List.length s)%nat, []).
Proof.
  revert acc nd. induction s as [|c s IH]; intros acc nd Hs; simpl.
  - rewrite Nat.add_0_r. reflexivity.
  - apply andb_prop in Hs as [Hc Hs].
    destruct (is_hex_digit_value c Hc) as [v Hv].
    destruct (hex_char_facts c v Hv) as (_ & _ & _ & _ & _ & Hu & _).
    rewrite Hu, Hv, IH by assumption.
    replace (hex_step acc c) with (acc * 16 + v)
      by (unfold hex_step, hex_digit; rewrite Hv; reflexivity).
    rewrite Nat.add_succ_r. reflexivity.
Qed.

Lemma length_list_ascii_of_string s :
  List.length (list_ascii_of_string s) = String.length s.
Proof. induction s; simpl; auto. Qed.

(** A code of hex digits parses to its value. *)
Lemma py_int_base16_hex s :
  is_hex_code s = true ->
  py_int_base16 s = Some (fold_left hex_step (list_ascii_of_string s) 0).
Proof.
  unfold is_hex_code, py_int_base16. intros H. apply andb_prop in H as [Hne Hall].
  destruct (list_ascii_of_string s) as [|c r] eqn:Es.
  { destruct s; [discriminate | discriminate]. }
  pose proof Hall as Hall'. simpl in Hall'. apply andb_prop in Hall' as [Hc Hr].
  destruct (is_hex_digit_value c Hc) as [v Hv].
  destruct (hex_char_facts c v Hv) as (Hsp & Hpl & Hmi & _ & _ & Hu & _).
  cbn [skip_spaces]. rewrite Hsp, Hpl, Hmi.
  destruct r as [|x r].
  - rewrite Hu, (scan_run_hex [c] 0 0 Hall). cbn [Nat.add List.length skip_spaces]. rewrite Z.mul_1_l. reflexivity.
  - simpl in Hr. apply andb_prop in Hr as [Hx _].
    destruct (is_hex_digit_value x Hx) as [vx Hvx].
    destruct (hex_char_facts x vx Hvx) as (_ & _ & _ & Hx1 & Hx2 & _).
    rewrite Hx1, Hx2, andb_false_r, Hu, (scan_run_hex (c :: x :: r) 0 0 Hall).
    cbn [Nat.add List.length skip_spaces]. rewrite Z.mul_1_l. reflexivity.
Qed.

Lemma hex_val_bound s acc k :
  forallb is_hex_digit s = true ->
  0 <= acc < 2 ^ Z.of_nat (4 * k) ->
  0 <= fold_left hex_step s acc < 2 ^ Z.of_nat (4 * (k + List.length s)).
Proof.
  revert acc k. induction s as [|c s IH]; intros acc k Hs Hacc; cbn [fold_left flat_map List.length].
  - rewrite Nat.add_0_r. assumption.
  - apply andb_prop in Hs as [Hc Hs].
    destruct (is_hex_digit_value c Hc) as [v Hv].
    destruct (hex_char_facts c v Hv) as (_ & _ & _ & _ & _ & _ & Hvb).
    replace (k + S (List.length s))%nat with (S k + List.length s)%nat by lia.
    apply IH; [assumption|].
    replace (hex_step acc c) with (acc * 16 + v)
      by (unfold hex_step, hex_digit; rewrite Hv; reflexivity).
    replace (Z.of_nat (4 * S k)) with (Z.of_nat (4 * k) + 4) by lia.
    rewrite Z.pow_add_r by lia. change (2 ^ 4) with 16. lia.
Qed.

Lemma hex_val_bits s acc k :
  forallb is_hex_digit s = true ->
  bits_w (fold_left hex_step s acc) (4 * k + 4 * List.length s)
  = bits_w acc (4 * k) ++ flat_map nibble s.
Proof.
  revert acc k. induction s as [|c s IH]; intros acc k Hs; cbn [fold_left flat_map List.length].
  - rewrite Nat.add_0_r, app_nil_r. reflexivity.
  - apply andb_prop in Hs as [Hc Hs].
    destruct (is_hex_digit_value c Hc) as [v Hv].
    destruct (hex_char_facts c v Hv) as (_ & _ & _ & _ & _ & _ & Hvb).
    replace (4 * k + 4 * S (List.length s))%nat
      with (4 * S k + 4 * List.length s)%nat by lia.
    rewrite IH by assumption.
    replace (hex_step acc c) with (acc * 16 + v)
      by (unfold hex_step, hex_digit; rewrite Hv; reflexivity).
    unfold nibble. rewrite Hv.
    replace (4 * S k)%nat with (4 * k + 4)%nat by lia.
    change 16 with (2 ^ Z.of_nat 4).
    rewrite bits_w_app by (simpl; lia). rewrite app_assoc. reflexivity.
Qed.

Lemma count_ne_bitchar l1 l2 :
  count_ne (map bitchar l1) (map bitchar l2) = hamming l1 l2.
Proof.
  revert l2. induction l1 as [|b1 l1 IH]; intros [|b2 l2]; simpl; try reflexivity.
  rewrite IH. destruct b1, b2; reflexivity.
Qed.

(** The distance on two codes of hex digits of one length. *)
Lemma calculate_similarity_hex a b :
  is_hex_code a = true -> is_hex_code b = true ->
  String.length a = String.length b ->
  calculate_similarity a b = hamming (hex_bits a) (hex_bits b).
Proof.
  intros Ha Hb Hlen. unfold calculate_similarity.
  rewrite (proj2 (Nat.eqb_eq _ _) Hlen). simpl negb. cbv iota.
  rewrite (py_int_base16_hex a Ha), (py_int_base16_hex b Hb).
  assert (Hw : forall s, is_hex_code s = true ->
            py_zfill (skipn 2 (py_bin (fold_left hex_step (list_ascii_of_string s) 0)))
                     (String.length s * 4) = map bitchar (hex_bits s)).
  { intros s Hs. pose proof Hs as Hs'.
    unfold is_hex_code in Hs'. apply andb_prop in Hs' as [Hne Hall].
    assert (Hn : (1 <= String.length s)%nat)
      by (destruct s; [discriminate | simpl; lia]).
    rewrite zfill_bin.
    - f_equal. unfold hex_bits.
      replace (String.length s * 4)%nat
        with (4 * 0 + 4 * List.length (list_ascii_of_string s))%nat
        by (rewrite length_list_ascii_of_string; lia).
      rewrite hex_val_bits by assumption. reflexivity.
    - lia.
    - pose proof (hex_val_bound (list_ascii_of_string s) 0 0 Hall) as Hbd.
      rewrite length_list_ascii_of_string in Hbd.
      replace (String.length s * 4)%nat with (4 * (0 + String.length s))%nat by lia.
      apply Hbd. simpl. lia. }
  rewrite (Hw a Ha), (Hw b Hb). apply count_ne_bitchar.
Qed.

Lemma count_ne_sym s1 s2 : count_ne s1 s2 = count_ne s2 s1.
Proof.
  revert s2. induction s1 as [|c1 s1 IH]; intros [|c2 s2]; simpl; try reflexivity.
  rewrite IH, Ascii.eqb_sym. reflexivity.
Qed.

Lemma count_ne_nonneg s1 s2 : 0 <= count_ne s1 s2.
Proof.
  revert s2. induction s1 as [|c1 s1 IH]; intros [|c2 s2]; simpl; try lia.
  specialize (IH s2). destruct (Ascii.eqb c1 c2); lia.
Qed.

Lemma count_ne_refl s : count_ne s s = 0.
Proof. induction s as [|c s IH]; simpl; [reflexivity|]. rewrite Ascii.eqb_refl, IH. reflexivity. Qed.

Lemma hamming_nonneg l1 l2 : 0 <= hamming l1 l2.
Proof.
  revert l2. induction l1 as [|b1 l1 IH]; intros [|b2 l2]; simpl; try lia.
  specialize (IH l2). destruct (Bool.eqb b1 b2); lia.
Qed.

Lemma hamming_zero_iff l1 l2 :
  List.length l1 = List.length l2 -> (hamming l1 l2 = 0 <-> l1 = l2).
Proof.
  revert l2. induction l1 as [|b1 l1 IH]; intros [|b2 l2] Hl; simpl in *;
    try discriminate; [tauto|].
  pose proof (hamming_nonneg l1 l2).
  destruct (Bool.eqb b1 b2) eqn:E.
  - apply Bool.eqb_prop in E. subst b2. rewrite Z.add_0_l, IH by lia.
    split; [intros ->; reflexivity | intros H'; injection H'; auto].
  - split; [lia|]. intros H'. injection H' as -> _. rewrite Bool.eqb_reflx in E. discriminate.
Qed.

Lemma hex_bits_length s :
  is_hex_code s = true -> List.length (hex_bits s) = (4 * String.length s)%nat.
Proof.
  intros Hs. unfold is_hex_code in Hs. apply andb_prop in Hs as [_ Hall].
  pose proof (hex_val_bits _ 0 0 Hall) as H. simpl in H.
  unfold hex_bits. rewrite <- H, bits_w_length, length_list_ascii_of_string. lia.
Qed.

(** ** C2: the distance function *)

(** Claim C2 (amended). [calculate_similarity a b] is 64 when the two codes
    differ in length, 64 when Python's [int(_, 16)] rejects either code,
    and, for two codes of one length made of hexadecimal digits only (and
    non-empty), the number of positions at which their 4n-bit decodings
    (4 bits per digit) differ. *)
Theorem calculate_similarity_spec a b :
  (String.length a <> String.length b -> calculate_similarity a b = 64) /\
  (py_int_base16 a = None \/ py_int_base16 b = None -> calculate_similarity a b = 64) /\
  (is_hex_code a = true -> is_hex_code b = true ->
   String.length a = String.length b ->
   calculate_similarity a b = hamming (hex_bits a) (hex_bits b)).
Proof.
  split; [|split].
  - intros Hne. unfold calculate_similarity.
    destruct (Nat.eqb (String.length a) (String.length b)) eqn:E; [|reflexivity].
    apply Nat.eqb_eq in E. contradiction.
  - intros [Ha|Hb]; unfold calculate_similarity;
      destruct (negb _); try reflexivity.
    + rewrite Ha. reflexivity.
    + destruct (py_int_base16 a); rewrite ?Hb; reflexivity.
  - apply calculate_similarity_hex.
Qed.

(** Claim C2, counterexample. "-1" is not a code of hex digits, yet
    [int("-1", 16)] accepts it, so the distance to "01" is not the sentinel
    64: the code compares the characters of "b1" and "1", padded. *)
Lemma calculate_similarity_sign_cex :
  is_hex_code "-1" = false /\
  String.length "-1" = String.length "01" /\
  calculate_similarity "-1" "01" = 1.
Proof. vm_compute. repeat split. Qed.

(** ** C3: algebraic properties of the distance *)

(** Claim C3 (amended). The distance is symmetric and non-negative on all
    strings; it is 0 from a code to itself when [int(_, 16)] accepts the
    code, and the sentinel 64 when it rejects it; on non-empty codes of hex
    digits of one length it is 0 exactly when their bit decodings are
    identical. *)
Theorem calculate_similarity_metric :
  (forall x y, calculate_similarity x y = calculate_similarity y x) /\
  (forall x y, 0 <= calculate_similarity x y) /\
  (forall x, py_int_base16 x <> None -> calculate_similarity x x = 0) /\
  (forall x, py_int_base16 x = None -> calculate_similarity x x = 64) /\
  (forall x y, is_hex_code x = true -> is_hex_code y = true ->
   String.length x = String.length y ->
   (calculate_similarity x y = 0 <-> hex_bits x = hex_bits y)).
Proof.
  split; [|split; [|split; [|split]]].
  - intros x y. unfold calculate_similarity. rewrite Nat.eqb_sym.
    destruct (Nat.eqb (String.length y) (String.length x)) eqn:E; [|reflexivity].
    apply Nat.eqb_eq in E. rewrite E. simpl negb. cbv iota.
    destruct (py_int_base16 x), (py_int_base16 y); try reflexivity.
    apply count_ne_sym.
  - intros x y. unfold calculate_similarity.
    destruct (negb _); [lia|].
    destruct (py_int_base16 x), (py_int_base16 y); try lia.
    apply count_ne_nonneg.
  - intros x Hx. unfold calculate_similarity. rewrite Nat.eqb_refl. simpl negb.
    destruct (py_int_base16 x); [|contradiction]. apply count_ne_refl.
  - intros x Hx. unfold calculate_similarity. rewrite Nat.eqb_refl, Hx. reflexivity.
  - intros x y Hx Hy Hl. rewrite calculate_similarity_hex by assumption.
    apply hamming_zero_iff. rewrite !hex_bits_length by assumption. lia.
Qed.

(** Claim C3, counterexample. The empty string is rejected by
    [int("", 16)], so its distance to itself is 64, not 0. *)
Lemma calculate_similarity_empty_cex : calculate_similarity "" "" = 64.
Proof. reflexivity. Qed.

(** ** Computations that neither read nor write the collection *)

Definition pure {A} (m : M A) : Prop := exists r, forall w, m w = (r, w).

Lemma pure_ret {A} (a : A) : pure (ret a).
Proof. exists (inl a). reflexivity. Qed.

Lemma pure_raise {A} e : pure (@raise A e).
Proof. exists (inr e). reflexivity. Qed.

Lemma pure_lib {A} (r : A + string) : pure (lib r).
Proof. destruct r; [apply pure_ret | apply pure_raise]. Qed.

Lemma pure_bind {A B} (m : M A) (k : A -> M B) :
  pure m -> (forall a, pure (k a)) -> pure (bind m k).
Proof.
  intros [r Hr] Hk. destruct r as [a|e].
  - destruct (Hk a) as [r' Hr']. exists r'. intros w. unfold bind. rewrite Hr. apply Hr'.
  - exists (inr e). intros w. unfold bind. rewrite Hr. reflexivity.
Qed.

Lemma pure_try {A} (m : M A) h :
  pure m -> (forall e, pure (h e)) -> pure (py_try m h).
Proof.
  intros [r Hr] Hh. destruct r as [a|e].
  - exists (inl a). intros w. unfold py_try. rewrite Hr. reflexivity.
  - destruct (Hh e) as [r' Hr']. exists r'. intros w. unfold py_try. rewrite Hr. apply Hr'.
Qed.

Create HintDb pure_db.
#[export] Hint Resolve pure_ret pure_raise pure_lib : pure_db.

Ltac solve_pure :=
  repeat match goal with
         | |- pure (bind _ _) => apply pure_bind; [|intro]
         | |- pure (py_try _ _) => apply pure_try; [|intro]
         | |- pure (if ?b then _ else _) => destruct b
         | |- pure (let '(_, _) := ?p in _) => destruct p
         | |- pure (match ?x with _ => _ end) => destruct x
         | |- pure _ => solve [auto with pure_db]
         | |- pure _ => progress unfold compute_hashes, reraise_or_500
         end.

Section Pure.
Context {L : ImageLib}.

Lemma validate_pure_m file : pure (validate_and_process_image file).
Proof. unfold validate_and_process_image. solve_pure. Qed.

(** The validator's outcome does not depend on the collection, which it
    leaves as it is. *)
Lemma validate_pure file w :
  validate_and_process_image file w
  = (fst (validate_and_process_image file (mk_world [] [])), w).
Proof.
  destruct (validate_pure_m file) as [r Hr]. rewrite !Hr. reflexivity.
Qed.

(** Every exception the validator raises is an [HTTPException]. *)
Definition raises_http {A} (m : M A) : Prop :=
  forall w e w', m w = (inr e, w') -> exists c d, e = HTTPException c d.

Lemma raises_http_bind {A B} (m : M A) (k : A -> M B) :
  raises_http m -> (forall a, raises_http (k a)) -> raises_http (bind m k).
Proof.
  intros Hm Hk w e w'. unfold bind. destruct (m w) as [[a|e0] w0] eqn:E.
  - apply Hk.
  - intros H. injection H as <- <-. eapply Hm. exact E.
Qed.

Lemma raises_http_try {A} (m : M A) h :
  (forall e, raises_http (h e)) -> raises_http (py_try m h).
Proof.
  intros Hh w e w'. unfold py_try. destruct (m w) as [[a|e0] w0].
  - discriminate.
  - apply Hh.
Qed.

Lemma raises_http_ret {A} (a : A) : raises_http (ret a).
Proof. intros w e w' H. discriminate. Qed.

Lemma raises_http_raise {A} c d : raises_http (@raise A (HTTPException c d)).
Proof. intros w e w' H. injection H as <- _. eauto. Qed.

Lemma validate_raises_http file : raises_http (validate_and_process_image file).
Proof.
  unfold validate_and_process_image.
  destruct (_ >? _); [apply raises_http_raise|].
  apply raises_http_bind.
  - apply raises_http_try. intros. apply raises_http_raise.
  - intros t. apply raises_http_try. intros. apply raises_http_raise.
Qed.

(** Case on an innermost [match] of hypothesis [H] (a library result or a
    test), then reduce. *)
Ltac case_in H :=
  match type of H with
  | context [match ?x with _ => _ end] =>
      lazymatch x with
      | context [match _ with _ => _ end] => fail
      | _ => destruct x eqn:?
      end
  end; cbn beta iota zeta in H.

(** What a successful validation returns: the four hashes computed on the
    processed image, and the SHA-256 digest of the raw uploaded bytes. *)
Lemma validate_ok_shape file w r w' :
  validate_and_process_image file w = (inl r, w') ->
  w' = w /\
  p_file_hash r = sha256_hexdigest (upload_content file) /\
  p_file_size r = Z.of_nat (List.length (upload_content file)) /\
  exists a p d wh,
    average_hash (p_image r) hash_size = inl a /\
    phash_of (p_image r) hash_size = inl p /\
    dhash_of (p_image r) hash_size = inl d /\
    whash_of (p_image r) hash_size = inl wh /\
    p_hashes r = [("ahash"%string, a); ("phash"%string, p);
                  ("dhash"%string, d); ("whash"%string, wh)].
Proof.
  intros H.
  cbv [validate_and_process_image bind py_try ret raise lib compute_hashes] in H.
  repeat (case_in H; try discriminate H).
  all: injection H as <- <-.
  all: repeat match goal with
              | E : (_, _) = (_, _) |- _ => injection E; clear E; intros; subst
              end.
  all: repeat split; eauto 15.
Qed.

End Pure.

(** ** The link route *)

Section Link.
Context {L : ImageLib}.

(** The three outcomes of [link_image_to_url]: the validator's error
    re-raised with the collection untouched; an update of the first
    document with the upload's checksum; an insert of a new document. *)
Lemma link_outcome url_ file new_id now w :
  match validate_and_process_image file w with
  | (inr e, _) => link_image_to_url url_ file new_id now w = (inr e, w)
  | (inl r, _) =>
      match find (hash_filter (p_file_hash r)) (image_links w) with
      | Some ex =>
          link_image_to_url url_ file new_id now w =
          (inl (LinkUpdated ("Updated URL for existing image: "
                             ++ py_str_opt (upload_filename file)) (id ex) url_),
           mk_world (set_url_first (p_file_hash r) url_ now (image_links w))
                    (journal w ++ [WUpdate (p_file_hash r) url_ now]))
      | None =>
          exists d,
          link_image_to_url url_ file new_id now w =
          (inl (LinkCreated ("Successfully linked " ++ py_str_opt (upload_filename file)
                             ++ " to " ++ url_) new_id url_ (p_hashes r)),
           mk_world (image_links w ++ [d]) (journal w ++ [WInsert d])) /\
          id d = new_id /\ url d = url_ /\ file_hash d = p_file_hash r /\
          filename d = py_or_unknown (upload_filename file) /\
          ahash d = dict_get "ahash" (p_hashes r) /\
          phash d = dict_get "phash" (p_hashes r) /\
          dhash d = dict_get "dhash" (p_hashes r) /\
          whash d = dict_get "whash" (p_hashes r) /\
          content_type d = p_content_type r /\ file_size d = p_file_size r /\
          image_width d = fst (p_image_size r) /\
          image_height d = snd (p_image_size r) /\
          created_at d = now /\ updated_at d = None
      end
  end.
Proof.
  destruct (validate_and_process_image file w) as [[r|e] w1] eqn:Hv.
  - destruct (validate_ok_shape file w r w1 Hv) as (-> & _ & _ & a & p & d & wh & _ & _ & _ & _ & Hh).
    unfold link_image_to_url, py_try, bind at 1. rewrite Hv.
    unfold bind at 1, find_one_by_hash. fold (hash_filter (p_file_hash r)).
    destruct (find (hash_filter (p_file_hash r)) (image_links w)) as [ex|] eqn:Hf.
    + reflexivity.
    + exists {| id := new_id; filename := py_or_unknown (upload_filename file);
                url := url_; file_hash := p_file_hash r;
                ahash := Some a; phash := Some p; dhash := Some d; whash := Some wh;
                content_type := p_content_type r; file_size := p_file_size r;
                image_width := fst (p_image_size r);
                image_height := snd (p_image_size r);
                created_at := now; updated_at := None |}.
      split; [|rewrite Hh; repeat split].
      unfold hash_filter in Hf.
      cbv [link_image_to_url py_try bind ret find_one_by_hash dict_item insert_one].
      rewrite Hv, Hf, Hh. reflexivity.
  - rewrite validate_pure in Hv. injection Hv as He <-.
    destruct (validate_raises_http file w e w) as (c & dt & ->).
    { rewrite validate_pure, He. reflexivity. }
    unfold link_image_to_url, py_try, bind at 1. rewrite validate_pure, He. reflexivity.
Qed.

End Link.

Section LinkFacts.
Context {L : ImageLib}.

(** The validator reads only the uploaded bytes, not the file name. *)
Lemma validate_content file1 file2 w :
  upload_content file1 = upload_content file2 ->
  validate_and_process_image file1 w = validate_and_process_image file2 w.
Proof. intros H. unfold validate_and_process_image. rewrite H. reflexivity. Qed.

(** The updated document is the first one with the checksum: everything
    before it has another checksum, it keeps all its fields but [url] and
    [updated_at], and nothing else changes. *)
Lemma set_url_first_split h u t l ex :
  find (hash_filter h) l = Some ex ->
  exists pre post,
    l = pre ++ ex :: post /\
    Forall (fun d => hash_filter h d = false) pre /\
    set_url_first h u t l = pre ++ set_url_fields u t ex :: post.
Proof.
  induction l as [|d l IH]; simpl; [discriminate|].
  unfold hash_filter at 1. destruct (String.eqb (file_hash d) h) eqn:E.
  - intros H. injection H as <-. exists [], l. repeat split; auto.
  - intros H. destruct (IH H) as (pre & post & -> & Hpre & Hs).
    exists (d :: pre), post. repeat split.
    + constructor; assumption.
    + rewrite Hs. reflexivity.
Qed.

Lemma map_file_hash_set_url_first h u t l :
  map file_hash (set_url_first h u t l) = map file_hash l.
Proof.
  induction l as [|d l IH]; simpl; [reflexivity|].
  destruct (String.eqb (file_hash d) h); simpl; rewrite ?IH; reflexivity.
Qed.

Lemma find_none_not_in h l :
  find (hash_filter h) l = None -> ~ In h (map file_hash l).
Proof.
  induction l as [|d l IH]; simpl; [tauto|].
  unfold hash_filter at 1. destruct (String.eqb (file_hash d) h) eqn:E; [discriminate|].
  intros Hf [Heq|Hin]; [|exact (IH Hf Hin)].
  apply String.eqb_neq in E. contradiction.
Qed.

End LinkFacts.

Section LinkFacts2.
Context {L : ImageLib}.

Lemma validate_ok_any file w r :
  fst (validate_and_process_image file w) = inl r ->
  forall w', validate_and_process_image file w' = (inl r, w').
Proof.
  intros H w'. rewrite validate_pure. rewrite validate_pure in H. simpl in H.
  rewrite H. reflexivity.
Qed.

Lemma find_app_none {A} (f : A -> bool) l1 l2 :
  find f l1 = None -> find f (l1 ++ l2) = find f l2.
Proof.
  induction l1 as [|x l1 IH]; simpl; [auto|].
  destruct (f x); [discriminate | exact IH].
Qed.

Lemma find_none_filter {A} (f : A -> bool) l : find f l = None -> filter f l = [].
Proof.
  induction l as [|x l IH]; simpl; [auto|].
  destruct (f x); [discriminate | exact IH].
Qed.

Lemma hash_filter_set_url_fields h u t d :
  hash_filter h (set_url_fields u t d) = hash_filter h d.
Proof. reflexivity. Qed.

Lemma find_set_url_first h u t l :
  find (hash_filter h) (set_url_first h u t l)
  = option_map (set_url_fields u t) (find (hash_filter h) l).
Proof.
  induction l as [|d l IH]; simpl; [reflexivity|].
  unfold hash_filter at 2. destruct (String.eqb (file_hash d) h) eqn:E; simpl.
  - rewrite hash_filter_set_url_fields. unfold hash_filter. rewrite E. reflexivity.
  - unfold hash_filter at 1. rewrite E. exact IH.
Qed.

Lemma length_filter_set_url_first h h' u t l :
  List.length (filter (hash_filter h') (set_url_first h u t l))
  = List.length (filter (hash_filter h') l).
Proof.
  induction l as [|d l IH]; simpl; [reflexivity|].
  destruct (String.eqb (file_hash d) h); simpl.
  - rewrite hash_filter_set_url_fields. destruct (hash_filter h' d); reflexivity.
  - destruct (hash_filter h' d); simpl; rewrite IH; reflexivity.
Qed.

End LinkFacts2.

(** ** C4, C6, C7, C9: linking *)

Section LinkClaims.
Context {L : ImageLib}.

(** Claim C4. For every upload that passes validation, one [link] call
    issues exactly one write: an update when a record with the same
    checksum exists (outcome Updated, with that record's id), an insert of
    a new record carrying the generated id otherwise (outcome Created).
    Starting from a store without the checksum, linking the same bytes
    twice gives Created then Updated with the same id, and the record ends
    with the second URL and unchanged fingerprints. *)
Theorem link_single_write file w r :
  fst (validate_and_process_image file w) = inl r ->
  link_single_write_post file w r /\
  (find (hash_filter (p_file_hash r)) (image_links w) = None ->
   link_twice_post file w r).
Proof.
  intros Hr. pose proof (validate_ok_any file w r Hr) as Hv. split.
  - intros url_ new_id now.
    pose proof (link_outcome url_ file new_id now w) as Ho. rewrite Hv in Ho.
    destruct (find (hash_filter (p_file_hash r)) (image_links w)) as [ex|] eqn:Hf.
    + rewrite Ho. simpl. do 2 eexists. repeat split; eauto.
    + destruct Ho as (d & Ho & Hid & Hurl & Hh & _). rewrite Ho. simpl.
      do 2 eexists. repeat split; eauto.
      exists d. repeat split; auto.
  - intros Hf url1 url2 id1 id2 t1 t2. cbv zeta.
    pose proof (link_outcome url1 file id1 t1 w) as Ho1. rewrite Hv, Hf in Ho1.
    destruct Ho1 as (d & Ho1 & Hid & Hurl & Hh & _). rewrite Ho1. simpl.
    assert (Hf1 : find (hash_filter (p_file_hash r)) (image_links w ++ [d]) = Some d).
    { rewrite find_app_none by assumption. simpl.
      unfold hash_filter. rewrite Hh, String.eqb_refl. reflexivity. }
    pose proof (link_outcome url2 file id2 t2
                  (mk_world (image_links w ++ [d]) (journal w ++ [WInsert d]))) as Ho2.
    rewrite Hv in Ho2. simpl image_links in Ho2. rewrite Hf1 in Ho2. rewrite Ho2. simpl.
    split; [eauto|]. split; [rewrite <- Hid; eauto|].
    exists d, (set_url_fields url2 t2 d).
    rewrite find_set_url_first, Hf1. repeat split; auto.
Qed.

(** Claim C6. When the checksum is already stored (outcome Updated), the
    write replaces the first record with that checksum by a copy whose
    [url] and [updated_at] are new and whose other fields (id, filename,
    checksum, the four fingerprints, content type, file size, width,
    height, created_at) are unchanged; every other record stays as it was. *)
Theorem link_update_frame url_ file new_id now w r ex :
  fst (validate_and_process_image file w) = inl r ->
  find (hash_filter (p_file_hash r)) (image_links w) = Some ex ->
  link_update_frame_post url_ file new_id now w ex.
Proof.
  intros Hr Hf. pose proof (validate_ok_any file w r Hr) as Hv.
  pose proof (link_outcome url_ file new_id now w) as Ho. rewrite Hv, Hf in Ho.
  unfold link_update_frame_post. rewrite Ho. simpl.
  destruct (set_url_first_split (p_file_hash r) url_ now (image_links w) ex Hf)
    as (pre & post & Hl & _ & Hs).
  exists pre, post, (set_url_fields url_ now ex). rewrite Hs.
  repeat split; assumption.
Qed.

(** Claim C7. When the validator fails with error [e] (413 too large, 400
    unsupported type or invalid image), [link] raises the same [e] and the
    store, journal of writes included, is exactly as before. *)
Theorem link_validation_error url_ file new_id now w e :
  fst (validate_and_process_image file w) = inr e ->
  link_image_to_url url_ file new_id now w = (inr e, w).
Proof.
  intros He. pose proof (link_outcome url_ file new_id now w) as Ho.
  rewrite validate_pure in Ho. rewrite validate_pure in He. simpl in He.
  rewrite He in Ho. exact Ho.
Qed.

(** Claim C9. The checksum a successful validation returns is the SHA-256
    digest of the raw uploaded bytes, whatever the decoding, RGB
    conversion and thumbnailing did; two uploads with the same bytes get
    the same checksum; and linking two such uploads, from a store without
    that checksum, leaves exactly one record with it. *)
Theorem checksum_raw_bytes file w r :
  fst (validate_and_process_image file w) = inl r ->
  p_file_hash r = sha256_hexdigest (upload_content file) /\
  (forall file' w' r',
     upload_content file' = upload_content file ->
     fst (validate_and_process_image file' w') = inl r' ->
     p_file_hash r' = p_file_hash r) /\
  (find (hash_filter (p_file_hash r)) (image_links w) = None ->
   forall file' url1 url2 id1 id2 t1 t2,
   upload_content file' = upload_content file ->
   let w2 := snd (link_image_to_url url2 file' id2 t2
                    (snd (link_image_to_url url1 file id1 t1 w))) in
   List.length (filter (hash_filter (p_file_hash r)) (image_links w2)) = 1%nat).
Proof.
  intros Hr. pose proof (validate_ok_any file w r Hr) as Hv.
  destruct (validate_ok_shape file w r w (Hv w)) as (_ & Hh & _).
  split; [exact Hh|]. split.
  - intros file' w' r' Hc Hr'.
    pose proof (validate_ok_any file' w' r' Hr' w) as Hv'.
    rewrite (validate_content file' file w Hc), Hv in Hv'.
    injection Hv' as ->. reflexivity.
  - intros Hf file' url1 url2 id1 id2 t1 t2 Hc. cbv zeta.
    pose proof (link_outcome url1 file id1 t1 w) as Ho1. rewrite Hv, Hf in Ho1.
    destruct Ho1 as (d & Ho1 & _ & _ & Hdh & _). rewrite Ho1. simpl.
    set (w1 := mk_world (image_links w ++ [d]) (journal w ++ [WInsert d])).
    assert (Hf1 : find (hash_filter (p_file_hash r)) (image_links w1) = Some d).
    { simpl. rewrite find_app_none by assumption. simpl.
      unfold hash_filter. rewrite Hdh, String.eqb_refl. reflexivity. }
    pose proof (link_outcome url2 file' id2 t2 w1) as Ho2.
    rewrite (validate_content file' file w1 Hc), Hv, Hf1 in Ho2. rewrite Ho2. simpl.
    rewrite length_filter_set_url_first, filter_app, (find_none_filter _ _ Hf).
    simpl. unfold hash_filter at 1. rewrite Hdh, String.eqb_refl. reflexivity.
Qed.

End LinkClaims.

(** ** C5: one record per checksum *)

(** Computations that only read the collection. *)
Definition readonly {A} (m : M A) : Prop := forall w, snd (m w) = w.

Lemma readonly_pure {A} (m : M A) : pure m -> readonly m.
Proof. intros [r Hr] w. rewrite Hr. reflexivity. Qed.

Lemma readonly_bind {A B} (m : M A) (k : A -> M B) :
  readonly m -> (forall a, readonly (k a)) -> readonly (bind m k).
Proof.
  intros Hm Hk w. unfold bind. specialize (Hm w).
  destruct (m w) as [[a|e] w']; simpl in *; subst; [apply Hk | reflexivity].
Qed.

Lemma readonly_try {A} (m : M A) h :
  readonly m -> (forall e, readonly (h e)) -> readonly (py_try m h).
Proof.
  intros Hm Hh w. unfold py_try. specialize (Hm w).
  destruct (m w) as [[a|e] w']; simpl in *; subst; [reflexivity | apply Hh].
Qed.

Lemma readonly_find_all n : readonly (find_all n).
Proof. intros w. reflexivity. Qed.

Section Invariant.
Context {L : ImageLib}.

Lemma scan_readonly file t : readonly (scan_image_for_url file t).
Proof.
  unfold scan_image_for_url. apply readonly_try.
  - apply readonly_bind; [apply readonly_pure, validate_pure_m|]. intros r.
    apply readonly_bind; [apply readonly_find_all|]. intros l.
    destruct (fst _); apply readonly_pure, pure_ret.
  - intros e. apply readonly_pure. unfold reraise_or_500. solve_pure.
Qed.

Lemma get_stored_images_readonly : readonly get_stored_images.
Proof.
  unfold get_stored_images. apply readonly_try.
  - apply readonly_bind; [apply readonly_find_all|]. intros l.
    apply readonly_pure, pure_ret.
  - intros e. apply readonly_pure, pure_raise.
Qed.

Lemma delete_stored_image_world i w :
  snd (delete_stored_image i w)
  = mk_world (fst (delete_first_id i (image_links w))) (journal w ++ [WDelete i]).
Proof.
  unfold delete_stored_image, py_try, bind, delete_one_by_id.
  destruct (delete_first_id i (image_links w)) as [l n]. simpl.
  destruct (n =? 0); reflexivity.
Qed.

Lemma delete_first_id_incl i l x :
  In x (map file_hash (fst (delete_first_id i l))) -> In x (map file_hash l).
Proof.
  induction l as [|d l IH]; simpl; [tauto|].
  destruct (String.eqb (id d) i); simpl; [auto|].
  destruct (delete_first_id i l) as [r n] eqn:E. simpl in *. intuition.
Qed.

Lemma delete_first_id_nodup i l :
  NoDup (map file_hash l) -> NoDup (map file_hash (fst (delete_first_id i l))).
Proof.
  induction l as [|d l IH]; simpl; [auto|]. intros Hn. inversion Hn; subst.
  destruct (String.eqb (id d) i); simpl; [assumption|].
  destruct (delete_first_id i l) as [r n] eqn:E. simpl in *.
  constructor; [|auto].
  intros Hin. apply H1. apply (delete_first_id_incl i l). rewrite E. exact Hin.
Qed.

Lemma run_op_preserves op w : unique_checksums w -> unique_checksums (run_op op w).
Proof.
  unfold unique_checksums. intros Hu. destruct op as [u f i t|f t| |i]; unfold run_op.
  - pose proof (link_outcome u f i t w) as Ho.
    destruct (validate_and_process_image f w) as [[r|e] w1].
    + destruct (find (hash_filter (p_file_hash r)) (image_links w)) as [ex|] eqn:Hf.
      * rewrite Ho. simpl. rewrite map_file_hash_set_url_first. exact Hu.
      * destruct Ho as (d & Ho & _ & _ & Hh & _). rewrite Ho. simpl.
        rewrite map_app. simpl. apply NoDup_app; [assumption | repeat constructor; simpl; tauto |].
        intros x Hx [<-|[]]. rewrite Hh in Hx. exact (find_none_not_in _ _ Hf Hx).
    + rewrite Ho. exact Hu.
  - rewrite scan_readonly. exact Hu.
  - rewrite get_stored_images_readonly. exact Hu.
  - rewrite delete_stored_image_world. simpl. apply delete_first_id_nodup, Hu.
Qed.

(** Claim C5. In every state reachable from the empty store by a sequence
    of link, scan, list and delete calls (each returning or raising), no
    two records share a checksum, and every further operation keeps it so. *)
Theorem unique_checksum_invariant w :
  reachable w ->
  unique_checksums w /\ forall op, unique_checksums (run_op op w).
Proof.
  intros Hr. assert (Hu : unique_checksums w).
  { induction Hr as [|op w Hr IH].
    - constructor.
    - apply run_op_preserves, IH. }
  split; [exact Hu|]. intros op. apply run_op_preserves, Hu.
Qed.

End Invariant.

(** ** The scan loop *)

Lemma compute_distances_in q d algs a v :
  In (a, v) (compute_distances q d algs) ->
  In a algs /\ exists h1 h2, dict_get a q = Some h1 /\ doc_get_hash d a = Some h2 /\
                             calculate_similarity h1 h2 = v.
Proof.
  induction algs as [|b algs IH]; simpl; [tauto|].
  destruct (dict_get b q) as [h1|] eqn:E1, (doc_get_hash d b) as [h2|] eqn:E2;
    try (intros H; destruct (IH H) as [? ?]; split; auto).
  intros [H|H].
  - injection H as <- <-. split; [auto|]. eauto.
  - destruct (IH H) as [? ?]. split; auto.
Qed.

Lemma compute_distances_complete q d algs a h1 h2 :
  In a algs -> dict_get a q = Some h1 -> doc_get_hash d a = Some h2 ->
  In (a, calculate_similarity h1 h2) (compute_distances q d algs).
Proof.
  induction algs as [|b algs IH]; simpl; [tauto|]. intros [<-|Hin] E1 E2.
  - rewrite E1, E2. left. reflexivity.
  - destruct (dict_get b q), (doc_get_hash d b); try right; auto.
Qed.

Lemma py_min_from_spec m l :
  (py_min_from m l = m \/ In (py_min_from m l) l) /\
  py_min_from m l <= m /\ forall x, In x l -> py_min_from m l <= x.
Proof.
  revert m. induction l as [|x l IH]; intros m; simpl.
  - split; [auto|]. split; [lia | tauto].
  - destruct (IH (if x <? m then x else m)) as (H1 & H2 & H3).
    destruct (Z.ltb_spec x m); repeat split.
    + destruct H1; auto.
    + lia.
    + intros y [<-|Hy]; auto.
    + destruct H1; auto.
    + lia.
    + intros y [<-|Hy]; [lia | auto].
Qed.

Lemma min_key_from_spec best ds :
  In (min_key_from best ds, py_min_from (snd best) (map snd ds)) (best :: ds).
Proof.
  revert best. induction ds as [|[k v] ds IH]; intros [k0 v0]; simpl; [auto|].
  destruct (v <? v0).
  - specialize (IH (k, v)). simpl in IH. destruct IH as [H|H]; [right; left | right; right]; auto.
  - specialize (IH (k0, v0)). simpl in IH. destruct IH as [H|H]; [left | right; right]; auto.
Qed.

Lemma cand_min_is_min q d k : cand_min q d = Some k -> is_min_distance q d k.
Proof.
  unfold cand_min. destruct (compute_distances q d scan_algorithms) as [|[k0 v0] ds] eqn:E;
    [discriminate|]. intros H. injection H as <-.
  destruct (py_min_from_spec v0 (map snd ds)) as (H1 & H2 & H3). split.
  - assert (Hin : exists a, In (a, py_min_from v0 (map snd ds)) ((k0, v0) :: ds)).
    { destruct H1 as [H1|H1].
      - exists k0. rewrite H1. left. reflexivity.
      - apply in_map_iff in H1. destruct H1 as [[a v] [Hv Ha]]. simpl in Hv. subst v.
        exists a. right. exact Ha. }
    destruct Hin as [a Hin]. rewrite <- E in Hin.
    destruct (compute_distances_in _ _ _ _ _ Hin) as (Ha & h1 & h2 & ? & ? & ?). eauto 7.
  - intros a h1 h2 Ha E1 E2.
    pose proof (compute_distances_complete q d _ a h1 h2 Ha E1 E2) as Hin. rewrite E in Hin.
    destruct Hin as [Hin|Hin].
    + injection Hin as _ <-. exact H2.
    + apply H3. apply in_map_iff. eexists; split; [|exact Hin]. reflexivity.
Qed.

Lemma cand_min_none q d :
  cand_min q d = None ->
  forall a, In a scan_algorithms -> dict_get a q = None \/ doc_get_hash d a = None.
Proof.
  unfold cand_min. intros H a Ha.
  destruct (dict_get a q) as [h1|] eqn:E1, (doc_get_hash d a) as [h2|] eqn:E2; auto.
  pose proof (compute_distances_complete q d _ a h1 h2 Ha E1 E2) as Hin.
  destruct (compute_distances q d scan_algorithms) as [|[k0 v0] ds]; [destruct Hin|discriminate].
Qed.

Lemma scan_loop_app q t l1 l2 bm bd :
  scan_loop q t (l1 ++ l2) bm bd =
  let '(bm', bd') := scan_loop q t l1 bm bd in scan_loop q t l2 bm' bd'.
Proof.
  revert bm bd. induction l1 as [|x l1 IH]; intros bm bd; [reflexivity|].
  cbn [scan_loop app]. destruct (compute_distances q x scan_algorithms) as [|[k0 v0] ds]; [apply IH|].
  destruct (_ && _); apply IH.
Qed.

Lemma scan_step q t x bm bd :
  (cand_min q x = None /\ scan_loop q t [x] bm bd = (bm, bd)) \/
  exists k, cand_min q x = Some k /\
    (((k <=? t) && lt_best k bd = false /\ scan_loop q t [x] bm bd = (bm, bd)) \/
     ((k <=? t) && lt_best k bd = true /\
      exists m, describes q x k m /\ scan_loop q t [x] bm bd = (Some m, Some k))).
Proof.
  unfold cand_min. cbn [scan_loop].
  destruct (compute_distances q x scan_algorithms) as [|[k0 v0] ds] eqn:E; [left; auto|].
  right. eexists; split; [reflexivity|].
  destruct (_ && _) eqn:Hc; [right | left; auto]. split; [reflexivity|].
  eexists; split; [|reflexivity].
  pose proof (min_key_from_spec (k0, v0) ds) as Hin. rewrite <- E in Hin.
  destruct (compute_distances_in _ _ _ _ _ Hin) as (_ & h1 & h2 & E1 & E2 & E3).
  unfold describes; simpl. repeat split. eauto.
Qed.

Lemma sfb_extend q l d k x :
  selects_first_best q l d k ->
  (forall k', cand_min q x = Some k' -> k <= k') ->
  selects_first_best q (l ++ [x]) d k.
Proof.
  intros (pre & post & -> & Hd & Hpre & Hpost) Hx.
  exists pre, (post ++ [x]). repeat split; auto.
  - rewrite <- app_assoc. reflexivity.
  - intros d' k' Hin Hk. apply in_app_or in Hin.
    destruct Hin as [Hin|[<-|[]]]; [exact (Hpost _ _ Hin Hk) | exact (Hx _ Hk)].
Qed.

Lemma sfb_new q l x kx :
  cand_min q x = Some kx ->
  (forall d k, In d l -> cand_min q d = Some k -> kx < k) ->
  selects_first_best q (l ++ [x]) x kx.
Proof.
  intros Hx Hl. exists l, []. repeat split; auto. intros ? ? [].
Qed.

Lemma sfb_le q l d k d' k' :
  selects_first_best q l d k -> In d' l -> cand_min q d' = Some k' -> k <= k'.
Proof.
  intros (pre & post & -> & Hd & Hpre & Hpost) Hin Hk.
  apply in_app_or in Hin. destruct Hin as [Hin|[<-|Hin]].
  - specialize (Hpre _ _ Hin Hk). lia.
  - rewrite Hd in Hk. injection Hk as <-. lia.
  - eauto.
Qed.

(** What the loop has established after the records [p]. *)
Definition scan_inv (q : dict string) (t : Z) (p : list doc)
           (st : option match_info * option Z) : Prop :=
  (st = (None, None) /\ forall d k, In d p -> cand_min q d = Some k -> t < k) \/
  (exists d k m, st = (Some m, Some k) /\ k <= t /\ describes q d k m /\
                 selects_first_best q p d k).

Lemma scan_loop_inv q t l : scan_inv q t l (scan_loop q t l None None).
Proof.
  induction l as [|x l IH] using rev_ind.
  - left. split; [reflexivity | intros ? ? []].
  - rewrite scan_loop_app. destruct (scan_loop q t l None None) as [bm bd].
    destruct (scan_step q t x bm bd) as [[Hx ->] | (kx & Hx & [[Hc ->] | [Hc (m & Hm & ->)]])].
    + destruct IH as [[Hst Hall] | (d & k & m & Hst & Hk & Hm & Hs)].
      * left. split; [exact Hst|]. intros d k Hin Hk.
        apply in_app_or in Hin. destruct Hin as [Hin|[<-|[]]]; [eauto | congruence].
      * right. exists d, k, m. refine (conj Hst (conj Hk (conj Hm _))).
        apply sfb_extend; [exact Hs | congruence].
    + destruct IH as [[Hst Hall] | (d & k & m & Hst & Hk & Hm & Hs)].
      * injection Hst as -> ->. left. split; [reflexivity|].
        simpl in Hc. rewrite andb_true_r in Hc. apply Z.leb_gt in Hc.
        intros d k Hin Hk. apply in_app_or in Hin.
        destruct Hin as [Hin|[<-|[]]]; [eauto | congruence].
      * injection Hst as -> ->. right. exists d, k, m.
        refine (conj eq_refl (conj Hk (conj Hm _))).
        apply sfb_extend; [exact Hs|]. intros k' Hk'. rewrite Hx in Hk'.
        injection Hk' as <-. simpl in Hc.
        destruct (Z.leb_spec kx t), (Z.ltb_spec kx k); simpl in Hc; try discriminate; lia.
    + apply andb_true_iff in Hc. destruct Hc as [Hc1 Hc2]. apply Z.leb_le in Hc1.
      right. exists x, kx, m. refine (conj eq_refl (conj Hc1 (conj Hm _))).
      apply sfb_new; [exact Hx|].
      destruct IH as [[Hst Hall] | (d & k & m' & Hst & Hk & Hm' & Hs)].
      * intros d k Hin Hk. specialize (Hall _ _ Hin Hk). lia.
      * injection Hst as -> ->. simpl in Hc2. apply Z.ltb_lt in Hc2.
        intros d' k' Hin Hk'. pose proof (sfb_le _ _ _ _ _ _ Hs Hin Hk'). lia.
Qed.

Section Scan.
Context {L : ImageLib}.

Lemma scan_outcome file t w r :
  fst (validate_and_process_image file w) = inl r ->
  scan_image_for_url file t w =
  (inl (let cands := firstn 1000 (image_links w) in
        let total := Z.of_nat (List.length cands) in
        match fst (scan_loop (p_hashes r) t cands None None) with
        | Some m => MatchFound ("Found matching image: " ++ m_filename m) m (m_url m) total
        | None => NoMatch "No matching images found" total t
        end), w).
Proof.
  intros H. rewrite validate_pure in H. simpl in H.
  unfold scan_image_for_url, py_try, bind. rewrite validate_pure, H.
  unfold find_all. remember (firstn 1000 (image_links w)) as cands. cbn.
  destruct (fst (scan_loop (p_hashes r) t cands None None)); reflexivity.
Qed.

Lemma scan_error file t w e :
  fst (validate_and_process_image file w) = inr e ->
  exists e', fst (scan_image_for_url file t w) = inr e'.
Proof.
  intros H. rewrite validate_pure in H. simpl in H.
  unfold scan_image_for_url, py_try, bind. rewrite validate_pure, H.
  destruct e; eexists; reflexivity.
Qed.

Lemma calculate_similarity_nonneg x y : 0 <= calculate_similarity x y.
Proof.
  unfold calculate_similarity. destruct (negb _); [lia|].
  destruct (py_int_base16 x), (py_int_base16 y); try lia.
  apply count_ne_nonneg.
Qed.

Lemma cand_min_nonneg q d k : cand_min q d = Some k -> 0 <= k.
Proof.
  intros H. destruct (cand_min_is_min q d k H) as [(a & h1 & h2 & _ & _ & _ & <-) _].
  apply calculate_similarity_nonneg.
Qed.

End Scan.

Section ScanClaims.
Context {L : ImageLib}.

(** Claim C1. For a valid query image, over the candidates the scan fetches
    (the first 1000 records, in insertion order): the minimum distance
    [cand_min] of a candidate is the least distance over the algorithms
    present in both the query's fingerprints and the record; MatchFound
    reports the first candidate whose minimum distance [k] is the least of
    all candidates, together with an algorithm achieving [k], and only when
    [k <= threshold]; NoMatch is returned when every candidate's minimum
    distance exceeds the threshold; so MatchFound is returned exactly when
    some candidate is within the threshold. *)
Theorem scan_best_match file threshold w r :
  fst (validate_and_process_image file w) = inl r ->
  (forall d k, cand_min (p_hashes r) d = Some k -> is_min_distance (p_hashes r) d k) /\
  ((exists msg m redirect total,
       fst (scan_image_for_url file threshold w) = inl (MatchFound msg m redirect total)) <->
   (exists d k, In d (firstn 1000 (image_links w)) /\ cand_min (p_hashes r) d = Some k /\
                k <= threshold)) /\
  match fst (scan_image_for_url file threshold w) with
  | inl (MatchFound _ m redirect total) =>
      exists d k, selects_first_best (p_hashes r) (firstn 1000 (image_links w)) d k /\
                  k <= threshold /\ describes (p_hashes r) d k m /\ redirect = url d /\
                  total = Z.of_nat (List.length (firstn 1000 (image_links w)))
  | inl (NoMatch _ total thr) =>
      (forall d k, In d (firstn 1000 (image_links w)) -> cand_min (p_hashes r) d = Some k ->
                   threshold < k) /\
      total = Z.of_nat (List.length (firstn 1000 (image_links w))) /\ thr = threshold
  | inr _ => False
  end.
Proof.
  intros Hv. rewrite (scan_outcome file threshold w r Hv). cbv zeta. cbn [fst].
  pose proof (scan_loop_inv (p_hashes r) threshold (firstn 1000 (image_links w))) as Hi.
  split; [apply cand_min_is_min|].
  destruct Hi as [[-> Hall] | (d & k & m & -> & Hk & Hm & Hs)]; cbn [fst].
  - split; [split|].
    + intros (msg & m & redirect & total & H). discriminate.
    + intros (d & k & Hin & Hd & Hk). specialize (Hall _ _ Hin Hd). lia.
    + auto.
  - split; [split|].
    + intros _. destruct Hs as (pre & post & Hl & Hd & _).
      exists d, k. rewrite Hl. split; [apply in_or_app; right; left; reflexivity|auto].
    + intros _. do 4 eexists. reflexivity.
    + exists d, k. pose proof Hm as (_ & _ & Hu & _).
      refine (conj Hs (conj Hk (conj Hm (conj Hu eq_refl)))).
Qed.

(** Claim C8. When the scan reports a match at distance [d], its similarity
    score is [max(0, 100 - d*10)]: never negative, and 0 for every
    [d >= 10]. *)
Theorem scan_similarity_score file threshold w msg m redirect total :
  fst (scan_image_for_url file threshold w) = inl (MatchFound msg m redirect total) ->
  m_similarity_percentage m = Z.max 0 (100 - m_distance m * 10) /\
  0 <= m_similarity_percentage m /\
  (10 <= m_distance m -> m_similarity_percentage m = 0).
Proof.
  destruct (fst (validate_and_process_image file w)) as [r|e] eqn:Hv.
  - rewrite (scan_outcome file threshold w r Hv). cbv zeta. cbn [fst].
    pose proof (scan_loop_inv (p_hashes r) threshold (firstn 1000 (image_links w))) as Hi.
    destruct Hi as [[-> _] | (d & k & m' & -> & _ & Hm & _)]; cbn [fst];
      intros H; [discriminate|].
    injection H as _ <- _ _. destruct Hm as (_ & _ & _ & Hd & Hsim & _).
    rewrite Hsim, Hd. repeat split; lia.
  - destruct (scan_error file threshold w e Hv) as [e' ->]. discriminate.
Qed.

(** Claim C10. With a negative threshold the scan of a valid image returns
    NoMatch, whatever the stored records: every distance is non-negative. *)
Theorem scan_negative_threshold file threshold w r :
  threshold < 0 ->
  fst (validate_and_process_image file w) = inl r ->
  fst (scan_image_for_url file threshold w)
  = inl (NoMatch "No matching images found"
                 (Z.of_nat (List.length (firstn 1000 (image_links w)))) threshold).
Proof.
  intros Ht Hv. rewrite (scan_outcome file threshold w r Hv). cbv zeta. cbn [fst].
  pose proof (scan_loop_inv (p_hashes r) threshold (firstn 1000 (image_links w))) as Hi.
  destruct Hi as [[-> _] | (d & k & m & -> & Hk & _ & Hs)]; [reflexivity|].
  destruct Hs as (_ & _ & _ & Hd & _). apply cand_min_nonneg in Hd. lia.
Qed.

End ScanClaims.

(** ** Further properties of the scan *)

(** The loop invariant again, naming the match dict built. *)
Definition scan_inv_m (q : dict string) (t : Z) (p : list doc)
           (st : option match_info * option Z) : Prop :=
  (st = (None, None) /\ forall d k, In d p -> cand_min q d = Some k -> t < k) \/
  (exists d k m, st = (Some m, Some k) /\ k <= t /\ match_of q d = Some m /\
                 selects_first_best q p d k).

Lemma scan_step_m q t x bm bd :
  (cand_min q x = None /\ scan_loop q t [x] bm bd = (bm, bd)) \/
  exists k m, cand_min q x = Some k /\ match_of q x = Some m /\
    (((k <=? t) && lt_best k bd = false /\ scan_loop q t [x] bm bd = (bm, bd)) \/
     ((k <=? t) && lt_best k bd = true /\ scan_loop q t [x] bm bd = (Some m, Some k))).
Proof.
  unfold cand_min, match_of. cbn [scan_loop].
  destruct (compute_distances q x scan_algorithms) as [|[k0 v0] ds]; [left; auto|].
  right. do 2 eexists. split; [reflexivity|]. split; [reflexivity|].
  destruct (_ && _); [right | left]; auto.
Qed.

Lemma scan_loop_inv_m q t l : scan_inv_m q t l (scan_loop q t l None None).
Proof.
  induction l as [|x l IH] using rev_ind.
  - left. split; [reflexivity | intros ? ? []].
  - rewrite scan_loop_app. destruct (scan_loop q t l None None) as [bm bd].
    destruct (scan_step_m q t x bm bd)
      as [[Hx ->] | (kx & mx & Hx & Hmx & [[Hc ->] | [Hc ->]])].
    + destruct IH as [[Hst Hall] | (d & k & m & Hst & Hk & Hm & Hs)].
      * left. split; [exact Hst|]. intros d k Hin Hk.
        apply in_app_or in Hin. destruct Hin as [Hin|[<-|[]]]; [eauto | congruence].
      * right. exists d, k, m. refine (conj Hst (conj Hk (conj Hm _))).
        apply sfb_extend; [exact Hs | congruence].
    + destruct IH as [[Hst Hall] | (d & k & m & Hst & Hk & Hm & Hs)].
      * injection Hst as -> ->. left. split; [reflexivity|].
        simpl in Hc. rewrite andb_true_r in Hc. apply Z.leb_gt in Hc.
        intros d k Hin Hk. apply in_app_or in Hin.
        destruct Hin as [Hin|[<-|[]]]; [eauto | congruence].
      * injection Hst as -> ->. right. exists d, k, m.
        refine (conj eq_refl (conj Hk (conj Hm _))).
        apply sfb_extend; [exact Hs|]. intros k' Hk'. rewrite Hx in Hk'.
        injection Hk' as <-. simpl in Hc.
        destruct (Z.leb_spec kx t), (Z.ltb_spec kx k); simpl in Hc; try discriminate; lia.
    + apply andb_true_iff in Hc. destruct Hc as [Hc1 Hc2]. apply Z.leb_le in Hc1.
      right. exists x, kx, mx. refine (conj eq_refl (conj Hc1 (conj Hmx _))).
      apply sfb_new; [exact Hx|].
      destruct IH as [[Hst Hall] | (d & k & m' & Hst & Hk & Hm' & Hs)].
      * intros d k Hin Hk. specialize (Hall _ _ Hin Hk). lia.
      * injection Hst as -> ->. simpl in Hc2. apply Z.ltb_lt in Hc2.
        intros d' k' Hin Hk'. pose proof (sfb_le _ _ _ _ _ _ Hs Hin Hk'). lia.
Qed.

Lemma app_cons_cases {A} (pre1 pre2 post1 post2 : list A) x1 x2 :
  pre1 ++ x1 :: post1 = pre2 ++ x2 :: post2 ->
  (pre1 = pre2 /\ x1 = x2) \/ (In x1 pre2 /\ In x2 post1) \/
  (In x2 pre1 /\ In x1 post2).
Proof.
  revert pre2. induction pre1 as [|a pre1 IH]; intros [|b pre2] H; simpl in H;
    injection H; clear H.
  - intros _ ->. left. auto.
  - intros -> ->. right. left. split; [left; reflexivity|].
    apply in_or_app. right. left. reflexivity.
  - intros <- ->. right. right. split; [left; reflexivity|].
    apply in_or_app. right. left. reflexivity.
  - intros H ->. destruct (IH pre2 H) as [[-> ->]|[[H1 H2]|[H1 H2]]].
    + left. auto.
    + right. left. split; [right|]; assumption.
    + right. right. split; [right|]; assumption.
Qed.

Lemma sfb_unique q l d1 k1 d2 k2 :
  selects_first_best q l d1 k1 -> selects_first_best q l d2 k2 -> d1 = d2.
Proof.
  intros (pre1 & post1 & Hl1 & Hd1 & Hpre1 & Hpost1)
         (pre2 & post2 & Hl2 & Hd2 & Hpre2 & Hpost2).
  rewrite Hl1 in Hl2.
  destruct (app_cons_cases _ _ _ _ _ _ Hl2) as [[_ E]|[[H1 H2]|[H1 H2]]]; [exact E| |].
  - specialize (Hpre2 _ _ H1 Hd1). specialize (Hpost1 _ _ H2 Hd2). lia.
  - specialize (Hpre1 _ _ H1 Hd2). specialize (Hpost2 _ _ H2 Hd1). lia.
Qed.

Section ScanExtra.
Context {L : ImageLib}.

(** Raising the threshold never changes a match: a MatchFound response at
    threshold [t] is returned unchanged at every threshold [t' >= t]. *)
Theorem scan_threshold_monotone file t t' w msg m redirect total :
  t <= t' ->
  fst (scan_image_for_url file t w) = inl (MatchFound msg m redirect total) ->
  fst (scan_image_for_url file t' w) = inl (MatchFound msg m redirect total).
Proof.
  intros Htt' H.
  destruct (fst (validate_and_process_image file w)) as [r|e] eqn:Hv.
  2:{ destruct (scan_error file t w e Hv) as [e' He]. congruence. }
  rewrite (scan_outcome file t w r Hv) in H. rewrite (scan_outcome file t' w r Hv).
  cbv zeta in *. cbn [fst] in *.
  pose proof (scan_loop_inv_m (p_hashes r) t (firstn 1000 (image_links w))) as Hi.
  pose proof (scan_loop_inv_m (p_hashes r) t' (firstn 1000 (image_links w))) as Hi'.
  destruct Hi as [[Hst _] | (d & k & m1 & Hst & Hk & Hm & Hs)]; rewrite Hst in H;
    cbn [fst] in H; [discriminate|].
  destruct Hi' as [[Hst' Hall] | (d' & k' & m2 & Hst' & Hk' & Hm' & Hs')]; rewrite Hst';
    cbn [fst].
  - destruct Hs as (pre & post & Hl & Hd & _). exfalso.
    assert (Hin : In d (firstn 1000 (image_links w))).
    { rewrite Hl. apply in_or_app. right. left. reflexivity. }
    specialize (Hall _ _ Hin Hd). lia.
  - rewrite (sfb_unique _ _ _ _ _ _ Hs' Hs) in Hm'. rewrite Hm in Hm'.
    injection Hm' as <-. exact H.
Qed.

(** The scan reads only the first 1000 records. *)
Lemma scan_firstn file t w1 w2 :
  firstn 1000 (image_links w1) = firstn 1000 (image_links w2) ->
  fst (scan_image_for_url file t w1) = fst (scan_image_for_url file t w2).
Proof.
  intros Hf. unfold scan_image_for_url, py_try, bind.
  rewrite (validate_pure file w1), (validate_pure file w2).
  destruct (fst (validate_and_process_image file (mk_world [] []))) as [r|e].
  - unfold find_all. cbn beta iota. rewrite Hf.
    destruct (fst (scan_loop (p_hashes r) t (firstn 1000 (image_links w2)) None None));
      reflexivity.
  - destruct e; reflexivity.
Qed.

(** Records stored after the first 1000 never change the scan's response. *)
Theorem scan_ignores_records_past_1000 file t l extra j :
  (1000 <= List.length l)%nat ->
  fst (scan_image_for_url file t (mk_world (l ++ extra) j))
  = fst (scan_image_for_url file t (mk_world l j)).
Proof.
  intros Hl. apply scan_firstn. cbn [image_links].
  rewrite firstn_app. replace (1000 - List.length l)%nat with 0%nat by lia.
  rewrite firstn_O, app_nil_r. reflexivity.
Qed.

Lemma calculate_similarity_self x : py_int_base16 x <> None -> calculate_similarity x x = 0.
Proof.
  intros Hx. unfold calculate_similarity. rewrite Nat.eqb_refl. simpl negb.
  destruct (py_int_base16 x); [|contradiction]. apply count_ne_refl.
Qed.

(** Linking new bytes into a store of fewer than 1000 records, then scanning
    the same bytes with a non-negative threshold, gives MatchFound at
    distance 0 and similarity 100, provided the image's dhash code is
    accepted by [int(_, 16)]. *)
Theorem link_then_scan url_ file new_id now w r h t :
  fst (validate_and_process_image file w) = inl r ->
  find (hash_filter (p_file_hash r)) (image_links w) = None ->
  (List.length (image_links w) < 1000)%nat ->
  dict_get "dhash" (p_hashes r) = Some h -> py_int_base16 h <> None -> 0 <= t ->
  exists msg m total,
    fst (scan_image_for_url file t (snd (link_image_to_url url_ file new_id now w)))
    = inl (MatchFound msg m (m_url m) total) /\
    m_distance m = 0 /\ m_similarity_percentage m = 100.
Proof.
  intros Hv Hf Hlen Hh Hp Ht.
  pose proof (link_outcome url_ file new_id now w) as Ho.
  rewrite (validate_ok_any file w r Hv w), Hf in Ho.
  destruct Ho as (d & -> & _ & _ & _ & _ & _ & _ & Hd & _). cbn [snd].
  set (w1 := mk_world (image_links w ++ [d]) (journal w ++ [WInsert d])).
  assert (Hv1 : fst (validate_and_process_image file w1) = inl r).
  { rewrite (validate_ok_any file w r Hv w1). reflexivity. }
  rewrite (scan_outcome file t w1 r Hv1). cbv zeta. cbn [fst].
  assert (Hc : firstn 1000 (image_links w1) = image_links w ++ [d]).
  { apply firstn_all2. cbn [image_links]. rewrite length_app. simpl. lia. }
  rewrite Hc.
  assert (Hin : In ("dhash"%string, calculate_similarity h h)
                   (compute_distances (p_hashes r) d scan_algorithms)).
  { apply compute_distances_complete; [simpl; tauto | exact Hh |].
    rewrite Hh in Hd. exact Hd. }
  rewrite (calculate_similarity_self h Hp) in Hin.
  assert (Hk : exists k, cand_min (p_hashes r) d = Some k /\ k <= 0).
  { unfold cand_min in *. destruct (compute_distances (p_hashes r) d scan_algorithms)
      as [|[k0 v0] ds] eqn:E; [destruct Hin|].
    eexists. split; [reflexivity|].
    destruct (cand_min_is_min (p_hashes r) d (py_min_from v0 (map snd ds))) as [_ Hmin].
    { unfold cand_min. rewrite E. reflexivity. }
    rewrite Hh in Hd.
    specialize (Hmin "dhash"%string h h (ltac:(simpl; tauto)) Hh Hd).
    rewrite (calculate_similarity_self h Hp) in Hmin. exact Hmin. }
  destruct Hk as (k & Hdk & Hk0).
  assert (Hdin : In d (image_links w ++ [d])) by (apply in_or_app; right; left; reflexivity).
  pose proof (scan_loop_inv (p_hashes r) t (image_links w ++ [d])) as Hi.
  destruct Hi as [[-> Hall] | (d' & k' & m & -> & Hk' & Hm & Hs)].
  - specialize (Hall _ _ Hdin Hdk). lia.
  - cbn [fst]. do 3 eexists. split; [reflexivity|].
    pose proof (sfb_le _ _ _ _ _ _ Hs Hdin Hdk) as Hle.
    destruct Hs as (_ & _ & _ & Hd' & _). apply cand_min_nonneg in Hd'.
    destruct Hm as (_ & _ & _ & Hdist & Hsim & _).
    rewrite Hsim, Hdist. replace k' with 0 by lia. split; reflexivity.
Qed.

End ScanExtra.

(** ** Further properties of the validator and the routes *)

(** Case on an innermost [match] of hypothesis [H], then reduce. *)
Ltac case_in H :=
  match type of H with
  | context [match ?x with _ => _ end] =>
      lazymatch x with
      | context [match _ with _ => _ end] => fail
      | _ => destruct x eqn:?
      end
  end; cbn beta iota zeta in H.

(** Turn the validator's boolean tests into propositions. *)
Ltac norm_tests :=
  repeat match goal with
  | E : (_ >? _) = true |- _ => apply Z.gtb_lt in E
  | E : (_ >? _) = false |- _ => rewrite Z.gtb_ltb, Z.ltb_ge in E
  | E : negb _ = true |- _ => apply negb_true_iff in E
  | E : negb _ = false |- _ => apply negb_false_iff in E
  end.

Section ValidatorExtra.
Context {L : ImageLib}.

Lemma validate_error_split file w e :
  fst (validate_and_process_image file w) = inr e ->
  (max_file_size < Z.of_nat (List.length (upload_content file)) /\
   e = HTTPException 413 "File too large (max 10MB)") \/
  (Z.of_nat (List.length (upload_content file)) <= max_file_size /\
   e = HTTPException 400 "Unable to determine file type" /\
   ((exists m, magic_from_buffer (upload_content file) = inr m) \/
    (exists t, magic_from_buffer (upload_content file) = inl t /\
               py_in t allowed_mime_types = false))) \/
  (Z.of_nat (List.length (upload_content file)) <= max_file_size /\
   (exists t, magic_from_buffer (upload_content file) = inl t /\
              py_in t allowed_mime_types = true) /\
   exists msg, e = HTTPException 400 ("Invalid image file: " ++ msg)).
Proof.
  intros H.
  cbv [validate_and_process_image bind py_try ret raise lib compute_hashes fst] in H.
  repeat (case_in H; try discriminate H).
  all: injection H as <-; norm_tests.
  all: first [ left; split; [assumption|reflexivity]
             | right; left; split; [assumption|]; split; [reflexivity|]; eauto
             | right; right; split; [assumption|]; split; [eauto | eexists; reflexivity] ].
Qed.

(** The validator fails in exactly three ways: 413 when the content is over
    10 MiB; 400 "Unable to determine file type" when python-magic raises or
    detects a type outside the allowed five; 400 "Invalid image file: ..."
    when decoding or hashing fails after an allowed type was detected. No
    other status is ever raised. *)
Theorem validate_error_cases file w e :
  fst (validate_and_process_image file w) = inr e ->
  (max_file_size < Z.of_nat (List.length (upload_content file)) /\
   e = HTTPException 413 "File too large (max 10MB)") \/
  (Z.of_nat (List.length (upload_content file)) <= max_file_size /\
   e = HTTPException 400 "Unable to determine file type" /\
   ((exists m, magic_from_buffer (upload_content file) = inr m) \/
    (exists t, magic_from_buffer (upload_content file) = inl t /\
               py_in t allowed_mime_types = false))) \/
  (Z.of_nat (List.length (upload_content file)) <= max_file_size /\
   (exists t, magic_from_buffer (upload_content file) = inl t /\
              py_in t allowed_mime_types = true) /\
   exists msg, e = HTTPException 400 ("Invalid image file: " ++ msg)).
Proof.
  intros H.
  cbv [validate_and_process_image bind py_try ret raise lib compute_hashes fst] in H.
  repeat (case_in H; try discriminate H).
  all: injection H as <-; norm_tests.
  all: first [ left; split; [assumption|reflexivity]
             | right; left; split; [assumption|]; split; [reflexivity|]; eauto
             | right; right; split; [assumption|]; split; [eauto | eexists; reflexivity] ].
Qed.

(** The 413 error is raised exactly when the content is longer than
    10 MiB; content of exactly 10 MiB passes the size check. *)
Theorem validate_too_large_iff file w :
  fst (validate_and_process_image file w) = inr (HTTPException 413 "File too large (max 10MB)")
  <-> max_file_size < Z.of_nat (List.length (upload_content file)).
Proof.
  split.
  - intros H. destruct (validate_error_split file w _ H)
      as [[Hl _] | [(_ & E & _) | (_ & _ & msg & E)]]; [exact Hl | discriminate | discriminate].
  - intros Hl. unfold validate_and_process_image.
    apply Z.gtb_lt in Hl. rewrite Hl. reflexivity.
Qed.

(** Content of allowed size whose detected type is not allowed (or whose
    type python-magic cannot detect) is rejected with 400 "Unable to
    determine file type": the "Unsupported file type" detail raised inside
    the [try] is caught by its own [except Exception] and never reaches the
    caller. *)
Theorem validate_type_rejected file w :
  Z.of_nat (List.length (upload_content file)) <= max_file_size ->
  (forall t, magic_from_buffer (upload_content file) = inl t ->
             py_in t allowed_mime_types = false) ->
  validate_and_process_image file w
  = (inr (HTTPException 400 "Unable to determine file type"), w).
Proof.
  intros Hl Ht. unfold validate_and_process_image.
  rewrite Z.gtb_ltb. apply Z.ltb_ge in Hl. rewrite Hl.
  cbv [bind py_try lib ret raise].
  destruct (magic_from_buffer (upload_content file)) as [t|m].
  - rewrite (Ht t eq_refl). reflexivity.
  - reflexivity.
Qed.

(** Content of allowed size and type that PIL cannot open is rejected with
    400 and the detail "Invalid image file: " followed by PIL's message. *)
Theorem validate_undecodable file w t m :
  Z.of_nat (List.length (upload_content file)) <= max_file_size ->
  magic_from_buffer (upload_content file) = inl t ->
  py_in t allowed_mime_types = true ->
  image_open (upload_content file) = inr m ->
  validate_and_process_image file w
  = (inr (HTTPException 400 ("Invalid image file: " ++ m)), w).
Proof.
  intros Hl Hm Ht Ho. unfold validate_and_process_image.
  rewrite Z.gtb_ltb. apply Z.ltb_ge in Hl. rewrite Hl.
  cbv [bind py_try lib ret raise]. rewrite Hm, Ht, Ho. reflexivity.
Qed.

(** A successful validation implies: the size is at most 10 MiB, the
    reported content type is python-magic's detection and one of the
    allowed types, PIL opened the content, the reported size is the byte
    count, and the hashes dict has exactly the keys ahash, phash, dhash,
    whash in that order. *)
Theorem validate_success_facts file w r :
  fst (validate_and_process_image file w) = inl r ->
  Z.of_nat (List.length (upload_content file)) <= max_file_size /\
  magic_from_buffer (upload_content file) = inl (p_content_type r) /\
  py_in (p_content_type r) allowed_mime_types = true /\
  (exists img, image_open (upload_content file) = inl img) /\
  p_file_size r = Z.of_nat (List.length (upload_content file)) /\
  map fst (p_hashes r) = ["ahash"%string; "phash"%string; "dhash"%string; "whash"%string].
Proof.
  intros H.
  cbv [validate_and_process_image bind py_try ret raise lib compute_hashes fst] in H.
  repeat (case_in H; try discriminate H).
  all: injection H as <-; norm_tests.
  all: repeat split; simpl; eauto.
Qed.

End ValidatorExtra.


Lemma delete_first_id_absent i l : ~ In i (map id l) -> delete_first_id i l = (l, 0).
Proof.
  induction l as [|d l IH]; simpl; [auto|]. intros Hn.
  destruct (String.eqb (id d) i) eqn:E.
  - apply String.eqb_eq in E. tauto.
  - rewrite IH by tauto. reflexivity.
Qed.

Lemma delete_first_id_present i l :
  In i (map id l) ->
  exists pre d post, l = pre ++ d :: post /\ id d = i /\ ~ In i (map id pre) /\
                     delete_first_id i l = (pre ++ post, 1).
Proof.
  induction l as [|d l IH]; simpl; [tauto|]. intros Hin.
  destruct (String.eqb (id d) i) eqn:E.
  - apply String.eqb_eq in E. exists [], d, l. repeat split; auto.
  - apply String.eqb_neq in E. destruct Hin as [Hd|Hin]; [contradiction|].
    destruct (IH Hin) as (pre & d' & post & -> & Hid & Hpre & Hdel).
    exists (d :: pre), d', post. rewrite Hdel. repeat split; auto.
    simpl. intros [H|H]; [contradiction | exact (Hpre H)].
Qed.

Lemma delete_first_id_last i l d :
  ~ In i (map id l) -> id d = i -> delete_first_id i (l ++ [d]) = (l, 1).
Proof.
  intros Hn Hd. induction l as [|x l IH]; simpl.
  - rewrite Hd, String.eqb_refl. reflexivity.
  - simpl in Hn. destruct (String.eqb (id x) i) eqn:E.
    + apply String.eqb_eq in E. tauto.
    + rewrite IH by tauto. reflexivity.
Qed.

Lemma hamming_le_length l1 l2 : hamming l1 l2 <= Z.of_nat (List.length l1).
Proof.
  revert l2. induction l1 as [|b1 l1 IH]; intros [|b2 l2]; simpl; try lia.
  specialize (IH l2). destruct (Bool.eqb b1 b2); lia.
Qed.

(** The entry of [GET /api/stored-images] for one record. *)
Definition summary_of (img : doc) : image_summary :=
  {| s_id := id img; s_filename := filename img; s_url := url img;
     s_content_type := content_type img;
     s_file_size := file_size img;
     s_image_size := py_str_int (image_width img) ++ "x"
                     ++ py_str_int (image_height img);
     s_created_at := created_at img |}.

Lemma get_stored_images_eq w :
  get_stored_images w = (inl (map summary_of (firstn 1000 (image_links w))), w).
Proof. reflexivity. Qed.

Section RouteExtra.
Context {L : ImageLib}.

(** When validation fails, scan re-raises the validator's error unchanged
    before it reads the collection, and the world is untouched. *)
Theorem scan_validation_error file t w e :
  fst (validate_and_process_image file w) = inr e ->
  scan_image_for_url file t w = (inr e, w).
Proof.
  intros Hv. rewrite validate_pure in Hv. simpl in Hv.
  destruct (validate_raises_http file w e w) as (c & dt & ->).
  { rewrite validate_pure, Hv. reflexivity. }
  unfold scan_image_for_url, py_try, bind. rewrite validate_pure, Hv.
  reflexivity.
Qed.

(** Scanning and listing never write to the collection. *)
Theorem scan_and_list_read_only file t w :
  snd (scan_image_for_url file t w) = w /\ snd (get_stored_images w) = w.
Proof. split; [apply scan_readonly | apply get_stored_images_readonly]. Qed.

(** After link inserts new bytes into a store of fewer than 1000 records,
    the listing is the previous listing followed by one entry for the new
    record: its id, file name (or "unknown"), URL, detected content type,
    byte count, "WxH" size and creation time. *)
Theorem link_then_list url_ file new_id now w r :
  fst (validate_and_process_image file w) = inl r ->
  find (hash_filter (p_file_hash r)) (image_links w) = None ->
  (List.length (image_links w) < 1000)%nat ->
  exists before,
    fst (get_stored_images w) = inl before /\
    fst (get_stored_images (snd (link_image_to_url url_ file new_id now w)))
    = inl (before ++
           [mk_summary new_id (py_or_unknown (upload_filename file)) url_
                       (p_content_type r) (Z.of_nat (List.length (upload_content file)))
                       (py_str_int (fst (p_image_size r)) ++ "x"
                        ++ py_str_int (snd (p_image_size r))) now]).
Proof.
  intros Hv Hf Hlen.
  pose proof (link_outcome url_ file new_id now w) as Ho.
  pose proof (validate_ok_any file w r Hv w) as Hv'.
  destruct (validate_ok_shape file w r w Hv') as (_ & _ & Hsize & _).
  rewrite Hv', Hf in Ho.
  destruct Ho as (d & -> & Hid & Hurl & _ & Hfn & _ & _ & _ & _ & Hct & Hfs & Hw & Hh & Hc & _).
  exists (map summary_of (image_links w)). cbn [snd].
  rewrite !get_stored_images_eq. cbn [fst image_links].
  rewrite firstn_all2 by lia. rewrite firstn_all2 by (rewrite length_app; simpl; lia).
  rewrite map_app. split; [reflexivity|]. cbn [map].
  unfold summary_of at 2. rewrite Hid, Hurl, Hfn, Hct, Hfs, Hsize, Hw, Hh, Hc. reflexivity.
Qed.

(** When the upload has no file name, the created record is stored with
    the file name "unknown" while the response message reads
    "Successfully linked None to <url>". *)
Theorem link_without_filename url_ file new_id now w r :
  upload_filename file = None ->
  fst (validate_and_process_image file w) = inl r ->
  find (hash_filter (p_file_hash r)) (image_links w) = None ->
  fst (link_image_to_url url_ file new_id now w)
  = inl (LinkCreated ("Successfully linked None to " ++ url_) new_id url_ (p_hashes r)) /\
  exists d, image_links (snd (link_image_to_url url_ file new_id now w))
            = image_links w ++ [d] /\ filename d = "unknown"%string.
Proof.
  intros Hn Hv Hf.
  pose proof (link_outcome url_ file new_id now w) as Ho.
  rewrite (validate_ok_any file w r Hv w), Hf in Ho.
  destruct Ho as (d & -> & _ & _ & _ & Hfn & _).
  rewrite Hn in Hfn |- *. split; [reflexivity|]. exists d. split; [reflexivity | exact Hfn].
Qed.

(** Deleting an id that no record has raises 404 "Image not found" and
    leaves every record in place. *)
Theorem delete_absent i w :
  ~ In i (map id (image_links w)) ->
  delete_stored_image i w
  = (inr (HTTPException 404 "Image not found"),
     mk_world (image_links w) (journal w ++ [WDelete i])).
Proof.
  intros Hn. unfold delete_stored_image, py_try, bind, delete_one_by_id.
  rewrite (delete_first_id_absent i _ Hn). reflexivity.
Qed.

(** Deleting an id that some record has removes exactly the first record
    with that id and keeps the others in order. *)
Theorem delete_present i w :
  In i (map id (image_links w)) ->
  exists pre d post,
    image_links w = pre ++ d :: post /\ id d = i /\ ~ In i (map id pre) /\
    delete_stored_image i w
    = (inl "Image link deleted successfully"%string,
       mk_world (pre ++ post) (journal w ++ [WDelete i])).
Proof.
  intros Hin. destruct (delete_first_id_present i _ Hin) as (pre & d & post & Hl & Hid & Hpre & Hdel).
  exists pre, d, post. repeat split; auto.
  unfold delete_stored_image, py_try, bind, delete_one_by_id. rewrite Hdel. reflexivity.
Qed.

(** Linking new bytes under an id no record has, then deleting that id,
    succeeds and restores the records as they were before the link. *)
Theorem link_then_delete url_ file new_id now w r :
  fst (validate_and_process_image file w) = inl r ->
  find (hash_filter (p_file_hash r)) (image_links w) = None ->
  ~ In new_id (map id (image_links w)) ->
  fst (delete_stored_image new_id (snd (link_image_to_url url_ file new_id now w)))
  = inl "Image link deleted successfully"%string /\
  image_links (snd (delete_stored_image new_id (snd (link_image_to_url url_ file new_id now w))))
  = image_links w.
Proof.
  intros Hv Hf Hn.
  pose proof (link_outcome url_ file new_id now w) as Ho.
  rewrite (validate_ok_any file w r Hv w), Hf in Ho.
  destruct Ho as (d & -> & Hid & _). cbn [snd].
  unfold delete_stored_image, py_try, bind, delete_one_by_id. cbn [image_links].
  rewrite (delete_first_id_last new_id _ d Hn Hid). split; reflexivity.
Qed.

End RouteExtra.

(** For two hex-digit codes of the same length n the distance lies between
    0 and 4n; for the 16-digit codes of 8x8 hashes it is at most 64. *)
Theorem calculate_similarity_hex_bound a b :
  is_hex_code a = true -> is_hex_code b = true ->
  String.length a = String.length b ->
  0 <= calculate_similarity a b <= 4 * Z.of_nat (String.length a).
Proof.
  intros Ha Hb Hl. rewrite calculate_similarity_hex by assumption.
  split; [apply hamming_nonneg|].
  pose proof (hamming_le_length (hex_bits a) (hex_bits b)) as H.
  rewrite hex_bits_length in H by assumption. lia.
Qed.

(* ================================================================== *)
(** * The claims on concrete inputs *)

Module Witnesses.
Import Toy.

(** The store after linking [png] once. *)
Definition w1 : world := snd (link_image_to_url "https://a.example/1" png "id1" 0 empty_world).

(** A record whose dhash is 3 bits away from [png]'s, with no other
    fingerprint. *)
Definition near_doc : doc :=
  mk_doc "near" "near.png" "https://a.example/near" "other-checksum"
         None None (Some "0f0f0f0f0f0f0f08"%string) None
         "image/png" 4 16 16 0 None.

Definition w_near : world := mk_world [near_doc] [].

(** Threshold boundary: distance 3 matches at threshold 3, not at 2. *)
Example scan_boundary_match :
  exists msg m, fst (scan_image_for_url png 3 w_near)
                = inl (MatchFound msg m "https://a.example/near" 1) /\
                m_distance m = 3 /\ m_similarity_percentage m = 70 /\
                m_algorithm_used m = "dhash"%string.
Proof. do 2 eexists. split; [vm_compute; reflexivity | vm_compute; auto]. Qed.

Example scan_boundary_nomatch :
  fst (scan_image_for_url png 2 w_near) = inl (NoMatch "No matching images found" 1 2).
Proof. vm_compute. reflexivity. Qed.

Lemma link_single_write_witness :
  exists r, fst (validate_and_process_image png empty_world) = inl r /\
    link_single_write_post png empty_world r /\
    (find (hash_filter (p_file_hash r)) (image_links empty_world) = None ->
     link_twice_post png empty_world r).
Proof.
  eexists. split; [reflexivity|].
  apply link_single_write. reflexivity.
Defined.

Lemma link_update_frame_witness :
  exists r ex, fst (validate_and_process_image png w1) = inl r /\
    find (hash_filter (p_file_hash r)) (image_links w1) = Some ex /\
    link_update_frame_post "https://a.example/2" png "id2" 5 w1 ex.
Proof.
  do 2 eexists. split; [reflexivity|]. split; [reflexivity|].
  eapply link_update_frame; reflexivity.
Defined.

Lemma link_validation_error_witness :
  exists e, fst (validate_and_process_image garbage w1) = inr e /\
    link_image_to_url "https://a.example/3" garbage "id3" 7 w1 = (inr e, w1).
Proof.
  eexists. split; [reflexivity|].
  apply link_validation_error. reflexivity.
Defined.

Lemma checksum_raw_bytes_witness :
  exists r, fst (validate_and_process_image png empty_world) = inl r /\
    p_file_hash r = sha256_hexdigest (upload_content png) /\
    (forall file' w' r',
       upload_content file' = upload_content png ->
       fst (validate_and_process_image file' w') = inl r' ->
       p_file_hash r' = p_file_hash r) /\
    (find (hash_filter (p_file_hash r)) (image_links empty_world) = None ->
     forall file' url1 url2 id1 id2 t1 t2,
       upload_content file' = upload_content png ->
       let w1 := snd (link_image_to_url url1 png id1 t1 empty_world) in
       let w2 := snd (link_image_to_url url2 file' id2 t2 w1) in
       List.length (filter (hash_filter (p_file_hash r)) (image_links w2)) = 1%nat).
Proof.
  eexists. split; [reflexivity|].
  apply checksum_raw_bytes. reflexivity.
Defined.

Lemma unique_checksum_invariant_witness :
  reachable w1 /\ unique_checksums w1 /\
  forall op, unique_checksums (run_op op w1).
Proof.
  assert (H : reachable w1).
  { apply (reachable_step (OpLink "https://a.example/1" png "id1" 0)), reachable_init. }
  split; [exact H | apply unique_checksum_invariant, H].
Defined.

Lemma scan_best_match_witness :
  exists r, fst (validate_and_process_image png w_near) = inl r /\
    match fst (scan_image_for_url png 3 w_near) with
    | inl (MatchFound _ m redirect total) =>
        exists d k, selects_first_best (p_hashes r) (firstn 1000 (image_links w_near)) d k /\
                    k <= 3 /\ describes (p_hashes r) d k m /\ redirect = url d /\
                    total = Z.of_nat (List.length (firstn 1000 (image_links w_near)))
    | inl (NoMatch _ total thr) =>
        (forall d k, In d (firstn 1000 (image_links w_near)) ->
                     cand_min (p_hashes r) d = Some k -> 3 < k) /\
        total = Z.of_nat (List.length (firstn 1000 (image_links w_near))) /\ thr = 3
    | inr _ => False
    end.
Proof.
  eexists. split; [reflexivity|].
  exact (proj2 (proj2 (scan_best_match png 3 w_near _ eq_refl))).
Defined.

Lemma scan_similarity_score_witness :
  exists msg m redirect total,
    fst (scan_image_for_url png 3 w_near) = inl (MatchFound msg m redirect total) /\
    m_similarity_percentage m = Z.max 0 (100 - m_distance m * 10) /\
    0 <= m_similarity_percentage m /\
    (10 <= m_distance m -> m_similarity_percentage m = 0).
Proof.
  do 4 eexists. split; [vm_compute; reflexivity|].
  eapply (scan_similarity_score png 3 w_near). vm_compute. reflexivity.
Defined.

Lemma scan_negative_threshold_witness :
  exists r, -1 < 0 /\ fst (validate_and_process_image png w1) = inl r /\
    fst (scan_image_for_url png (-1) w1)
    = inl (NoMatch "No matching images found"
                   (Z.of_nat (List.length (firstn 1000 (image_links w1)))) (-1)).
Proof.
  eexists. split; [lia|]. split; [reflexivity|].
  eapply (scan_negative_threshold png (-1) w1); [lia | reflexivity].
Defined.

End Witnesses.

(* ================================================================== *)
(** * The further properties on concrete inputs *)

Module ExtraWitnesses.
Import Toy.

(** A library whose python-magic detects every content as plain text. *)
Definition text_lib : ImageLib := {|
  image := unit;
  magic_from_buffer := fun _ => inl "text/plain"%string;
  image_open := fun _ => inl tt;
  image_mode := fun _ => "RGB"%string;
  image_convert := fun i _ => inl i;
  image_size := fun _ => (1, 1);
  image_thumbnail := fun i _ => inl i;
  average_hash := fun _ _ => inl "0000000000000000"%string;
  phash_of := fun _ _ => inl "0000000000000000"%string;
  dhash_of := fun _ _ => inl "0000000000000000"%string;
  whash_of := fun _ _ => inl "0000000000000000"%string;
  sha256_hexdigest := fun _ => ""%string
|}.

Definition anonymous : upload := mk_upload None [x89; x01].

Definition store_one : world :=
  snd (link_image_to_url "https://b.example/1" png "img1" 0 empty_world).

Definition close_doc : doc :=
  mk_doc "close" "close.png" "https://b.example/close" "another-checksum"
         None None (Some "0f0f0f0f0f0f0f08"%string) None
         "image/png" 4 16 16 0 None.

Definition store_close : world := mk_world [close_doc] [].

Example distance_16_digits_max :
  calculate_similarity "ff00ff00ff00ff00" "00ff00ff00ff00ff" = 64.
Proof. vm_compute. reflexivity. Qed.

Lemma validate_error_cases_witness :
  exists e, fst (validate_and_process_image garbage empty_world) = inr e /\
  ((max_file_size < Z.of_nat (List.length (upload_content garbage)) /\
    e = HTTPException 413 "File too large (max 10MB)") \/
   (Z.of_nat (List.length (upload_content garbage)) <= max_file_size /\
    e = HTTPException 400 "Unable to determine file type" /\
    ((exists m, magic_from_buffer (upload_content garbage) = inr m) \/
     (exists t, magic_from_buffer (upload_content garbage) = inl t /\
                py_in t allowed_mime_types = false))) \/
   (Z.of_nat (List.length (upload_content garbage)) <= max_file_size /\
    (exists t, magic_from_buffer (upload_content garbage) = inl t /\
               py_in t allowed_mime_types = true) /\
    exists msg, e = HTTPException 400 ("Invalid image file: " ++ msg))).
Proof.
  eexists. split; [reflexivity|].
  apply (validate_error_cases garbage empty_world). reflexivity.
Defined.

Lemma validate_type_rejected_witness :
  Z.of_nat (List.length (upload_content png)) <= max_file_size /\
  (forall t, @magic_from_buffer text_lib (upload_content png) = inl t ->
             py_in t allowed_mime_types = false) /\
  @validate_and_process_image text_lib png empty_world
  = (inr (HTTPException 400 "Unable to determine file type"), empty_world).
Proof.
  assert (Hl : Z.of_nat (List.length (upload_content png)) <= max_file_size)
    by (apply Z.leb_le; reflexivity).
  assert (Ht : forall t, @magic_from_buffer text_lib (upload_content png) = inl t ->
                         py_in t allowed_mime_types = false)
    by (vm_compute; intros t H; injection H as <-; reflexivity).
  split; [exact Hl|]. split; [exact Ht|].
  exact (@validate_type_rejected text_lib png empty_world Hl Ht).
Defined.

Lemma validate_undecodable_witness :
  Z.of_nat (List.length (upload_content garbage)) <= max_file_size /\
  magic_from_buffer (upload_content garbage) = inl "image/png"%string /\
  py_in "image/png" allowed_mime_types = true /\
  image_open (upload_content garbage) = inr "cannot identify image file"%string /\
  validate_and_process_image garbage store_one
  = (inr (HTTPException 400 ("Invalid image file: " ++ "cannot identify image file")),
     store_one).
Proof.
  assert (Hl : Z.of_nat (List.length (upload_content garbage)) <= max_file_size)
    by (apply Z.leb_le; reflexivity).
  split; [exact Hl|]. split; [reflexivity|]. split; [reflexivity|]. split; [reflexivity|].
  apply (validate_undecodable garbage store_one "image/png");
    [exact Hl | reflexivity | reflexivity | reflexivity].
Defined.

Lemma validate_success_facts_witness :
  exists r, fst (validate_and_process_image png empty_world) = inl r /\
  Z.of_nat (List.length (upload_content png)) <= max_file_size /\
  magic_from_buffer (upload_content png) = inl (p_content_type r) /\
  py_in (p_content_type r) allowed_mime_types = true /\
  (exists img, image_open (upload_content png) = inl img) /\
  p_file_size r = Z.of_nat (List.length (upload_content png)) /\
  map fst (p_hashes r) = ["ahash"%string; "phash"%string; "dhash"%string; "whash"%string].
Proof.
  eexists. split; [reflexivity|].
  apply (validate_success_facts png empty_world). reflexivity.
Defined.

Lemma scan_validation_error_witness :
  exists e, fst (validate_and_process_image garbage store_one) = inr e /\
  scan_image_for_url garbage 10 store_one = (inr e, store_one).
Proof.
  eexists. split; [reflexivity|].
  apply scan_validation_error. reflexivity.
Defined.

Lemma link_then_list_witness :
  exists r, fst (validate_and_process_image png empty_world) = inl r /\
  find (hash_filter (p_file_hash r)) (image_links empty_world) = None /\
  (List.length (image_links empty_world) < 1000)%nat /\
  exists before,
    fst (get_stored_images empty_world) = inl before /\
    fst (get_stored_images (snd (link_image_to_url "https://b.example/1" png "img1" 0 empty_world)))
    = inl (before ++
           [mk_summary "img1" (py_or_unknown (upload_filename png)) "https://b.example/1"
                       (p_content_type r) (Z.of_nat (List.length (upload_content png)))
                       (py_str_int (fst (p_image_size r)) ++ "x"
                        ++ py_str_int (snd (p_image_size r))) 0]).
Proof.
  eexists. split; [reflexivity|]. split; [reflexivity|]. split; [simpl; lia|].
  apply link_then_list; [reflexivity | reflexivity | simpl; lia].
Defined.

Lemma link_without_filename_witness :
  exists r, upload_filename anonymous = None /\
  fst (validate_and_process_image anonymous empty_world) = inl r /\
  find (hash_filter (p_file_hash r)) (image_links empty_world) = None /\
  fst (link_image_to_url "https://b.example/3" anonymous "img3" 2 empty_world)
  = inl (LinkCreated ("Successfully linked None to " ++ "https://b.example/3")
                     "img3" "https://b.example/3" (p_hashes r)) /\
  exists d, image_links (snd (link_image_to_url "https://b.example/3" anonymous "img3" 2
                                                empty_world))
            = image_links empty_world ++ [d] /\ filename d = "unknown"%string.
Proof.
  eexists. split; [reflexivity|]. split; [reflexivity|]. split; [reflexivity|].
  apply link_without_filename; reflexivity.
Defined.

Lemma delete_absent_witness :
  ~ In "missing"%string (map id (image_links store_one)) /\
  delete_stored_image "missing" store_one
  = (inr (HTTPException 404 "Image not found"),
     mk_world (image_links store_one) (journal store_one ++ [WDelete "missing"])).
Proof.
  assert (Hn : ~ In "missing"%string (map id (image_links store_one))).
  { vm_compute. intros [H|[]]. discriminate H. }
  split; [exact Hn | exact (delete_absent _ _ Hn)].
Defined.

Lemma delete_present_witness :
  In "img1"%string (map id (image_links store_one)) /\
  exists pre d post,
    image_links store_one = pre ++ d :: post /\ id d = "img1"%string /\
    ~ In "img1"%string (map id pre) /\
    delete_stored_image "img1" store_one
    = (inl "Image link deleted successfully"%string,
       mk_world (pre ++ post) (journal store_one ++ [WDelete "img1"])).
Proof.
  assert (Hin : In "img1"%string (map id (image_links store_one)))
    by (vm_compute; left; reflexivity).
  split; [exact Hin | exact (delete_present _ _ Hin)].
Defined.

Lemma link_then_delete_witness :
  exists r, fst (validate_and_process_image png empty_world) = inl r /\
  find (hash_filter (p_file_hash r)) (image_links empty_world) = None /\
  ~ In "img1"%string (map id (image_links empty_world)) /\
  fst (delete_stored_image "img1"
         (snd (link_image_to_url "https://b.example/1" png "img1" 0 empty_world)))
  = inl "Image link deleted successfully"%string /\
  image_links (snd (delete_stored_image "img1"
                      (snd (link_image_to_url "https://b.example/1" png "img1" 0 empty_world))))
  = image_links empty_world.
Proof.
  assert (Hn : ~ In "img1"%string (map id (image_links empty_world))) by (simpl; tauto).
  eexists. split; [reflexivity|]. split; [reflexivity|]. split; [exact Hn|].
  eapply link_then_delete; [reflexivity | reflexivity | exact Hn].
Defined.

Lemma scan_threshold_monotone_witness :
  exists msg m redirect total,
    3 <= 5 /\
    fst (scan_image_for_url png 3 store_close) = inl (MatchFound msg m redirect total) /\
    fst (scan_image_for_url png 5 store_close) = inl (MatchFound msg m redirect total).
Proof.
  do 4 eexists. split; [lia|]. split; [vm_compute; reflexivity|].
  eapply (scan_threshold_monotone png 3 5 store_close); [lia | vm_compute; reflexivity].
Defined.

Lemma scan_ignores_records_past_1000_witness :
  (1000 <= List.length (repeat close_doc 1000))%nat /\
  fst (scan_image_for_url png 10 (mk_world (repeat close_doc 1000 ++ image_links store_one) []))
  = fst (scan_image_for_url png 10 (mk_world (repeat close_doc 1000) [])).
Proof.
  assert (Hl : (1000 <= List.length (repeat close_doc 1000))%nat)
    by (rewrite repeat_length; lia).
  split; [exact Hl | exact (scan_ignores_records_past_1000 _ _ _ _ _ Hl)].
Defined.

Lemma link_then_scan_witness :
  exists r, fst (validate_and_process_image png empty_world) = inl r /\
  find (hash_filter (p_file_hash r)) (image_links empty_world) = None /\
  (List.length (image_links empty_world) < 1000)%nat /\
  dict_get "dhash" (p_hashes r) = Some "0f0f0f0f0f0f0f0f"%string /\
  py_int_base16 "0f0f0f0f0f0f0f0f" <> None /\ 0 <= 0 /\
  exists msg m total,
    fst (scan_image_for_url png 0
           (snd (link_image_to_url "https://b.example/1" png "img1" 0 empty_world)))
    = inl (MatchFound msg m (m_url m) total) /\
    m_distance m = 0 /\ m_similarity_percentage m = 100.
Proof.
  assert (Hp : py_int_base16 "0f0f0f0f0f0f0f0f" <> None) by (vm_compute; discriminate).
  eexists. split; [reflexivity|]. split; [reflexivity|]. split; [simpl; lia|].
  split; [reflexivity|]. split; [exact Hp|]. split; [lia|].
  eapply link_then_scan; [reflexivity | reflexivity | simpl; lia | reflexivity | exact Hp | lia].
Defined.

Lemma calculate_similarity_hex_bound_witness :
  is_hex_code "ff00ff00ff00ff00" = true /\ is_hex_code "00ff00ff00ff00ff" = true /\
  String.length "ff00ff00ff00ff00" = String.length "00ff00ff00ff00ff" /\
  0 <= calculate_similarity "ff00ff00ff00ff00" "00ff00ff00ff00ff"
    <= 4 * Z.of_nat (String.length "ff00ff00ff00ff00").
Proof.
  split; [reflexivity|]. split; [reflexivity|]. split; [reflexivity|].
  apply calculate_similarity_hex_bound; reflexivity.
Defined.

End ExtraWitnesses.
